(** * Add-on registry and event dispatch of weblate/addons/models.py

    A shallow embedding of the add-on installation model ([Addon], [Event]),
    its query set ([filter_component], [filter_event]) and the signal
    receivers that dispatch add-on events ([handle_addon_event],
    [post_update], ...).

    The Python code is effectful: it writes database tables, calls into the
    host application (logging, error reporting, tracing spans) and into the
    add-on implementations, and any of these calls may raise.  The embedding
    threads an explicit [Store] through every call, returns a [Result] that is
    either a value or a raised exception, and records every call that leaves
    the module in a trace, in the order the calls are made. *)

From Stdlib Require Import List String Bool Arith Lia.
Import ListNotations.
Open Scope string_scope.
Open Scope list_scope.

Set Implicit Arguments.

(** ** Data model *)

(** The event types imported from [weblate.addons.events].  [Event.event] is
    an integer field restricted to these choices; the module only ever
    compares them for equality and uses them as dictionary keys. *)
Inductive EventType : Type :=
| EVENT_COMPONENT_UPDATE
| EVENT_POST_ADD
| EVENT_POST_COMMIT
| EVENT_POST_PUSH
| EVENT_POST_UPDATE
| EVENT_PRE_COMMIT
| EVENT_PRE_PUSH
| EVENT_PRE_UPDATE
| EVENT_STORE_POST_LOAD
| EVENT_UNIT_POST_SAVE
| EVENT_UNIT_PRE_CREATE.

Definition EventType_eq_dec (x y : EventType) : {x = y} + {x <> y}.
Proof. decide equality. Defined.

Definition EventType_eqb (x y : EventType) : bool :=
  if EventType_eq_dec x y then true else false.

(** The three history actions of [Change] that this module stores. *)
Inductive ChangeAction : Type :=
| ACTION_ADDON_CREATE
| ACTION_ADDON_CHANGE
| ACTION_ADDON_REMOVE.

(** JSON blobs ([configuration], [state]) are kept in serialised form. *)
Definition JSON : Type := string.

Record Project : Type := mkProject { project_pk : nat }.

(** A component as the Python side sees it: [linked_component] is the
    component whose repository this one shares, or [None]. *)
#[local] Unset Elimination Schemes.
Inductive Component : Type := mkComponent {
  component_pk : nat;
  project : Project;
  linked_component : option Component;
  acting_user : option nat
}.
#[local] Set Elimination Schemes.

Record Translation : Type := mkTranslation {
  translation_pk : nat;
  translation_component : Component
}.

Record Unit : Type := mkUnit {
  unit_pk : nat;
  unit_translation : Translation
}.

(** An add-on installation ([class Addon]).  [addon_pk] is [None] until the
    row has been inserted. *)
Record Addon : Type := mkAddon {
  addon_pk : option nat;
  component : Component;
  name : string;
  configuration : JSON;
  state : JSON;
  project_scope : bool;
  repo_scope : bool
}.

(** An event subscription ([class Event]); [event_addon] is the primary key
    of the installation it belongs to. *)
Record Event : Type := mkEvent {
  event_pk : nat;
  event_addon : nat;
  event_event : EventType
}.

(** A history entry, as created by [Addon.store_change]. *)
Record Change : Type := mkChange {
  change_action : ChangeAction;
  change_user : option nat;
  change_component : Component;
  change_target : string;
  change_details : JSON
}.

(** Django compares model instances by primary key. *)
Definition same_component (c d : Component) : bool :=
  Nat.eqb (component_pk c) (component_pk d).

Definition same_project (p q : Project) : bool :=
  Nat.eqb (project_pk p) (project_pk q).

(** Python values that travel as arguments of the handlers. *)
Inductive PyVal : Type :=
| VNone
| VBool (b : bool)
| VStr (s : string)
| VComponent (c : Component)
| VTranslation (t : Translation)
| VUnit (u : Unit)
| VObject (repr : string).

(** Keyword arguments are a dictionary built from the call site, here an
    association list in call-site order. *)
Definition Kwargs : Type := list (string * PyVal).

Fixpoint kwargs_get (kw : Kwargs) (key : string) : PyVal :=
  match kw with
  | [] => VNone
  | (k, v) :: rest => if String.eqb k key then v else kwargs_get rest key
  end.

Inductive Args : Type :=
| KwArgs (kw : Kwargs)
| PosArgs (args : list PyVal).

(** Exceptions.  The handlers of the module distinguish the database errors
    of the framework ([django.db.Error] and its subclasses) from every other
    [Exception].  What is raised outside the [Exception] hierarchy
    (interpreter exit, keyboard interrupt) is not modelled. *)
Inductive Exn : Type :=
| DjangoDatabaseError (detail : string)
| PyException (cls : string) (detail : string).

Definition is_database_error (e : Exn) : bool :=
  match e with
  | DjangoDatabaseError _ => true
  | PyException _ _ => false
  end.

Definition KeyError (key : string) : Exn := PyException "KeyError" key.
Definition AttributeError (attr : string) : Exn := PyException "AttributeError" attr.
Definition ValueError (what : string) : Exn := PyException "ValueError" what.
Definition MultipleObjectsReturned : Exn :=
  PyException "MultipleObjectsReturned" "Event".

Inductive Result (A : Type) : Type :=
| Ok (a : A)
| Raise (e : Exn).
Arguments Ok {A} a.
Arguments Raise {A} e.

(** Calls that leave the module, in the order they are made. *)
Inductive Call : Type :=
| LogDebug (target : PyVal) (fmt : string) (args : list string)
| LogWarning (c : Component) (fmt : string) (args : list string)
| SpanStart (op description : string)
| SpanFinish
| Invoke (a : Addon) (method : string) (args : Args)
| ReportError (cause : string) (p : Project)
| CanInstall (a : Addon) (c : Component)
| PostUninstall (a : Addon)
| DropAddonsCache (c : Component)
| DeleteAlert (c : Component) (alert : string)
| ChangeCreate (ch : Change)
| ModelSave (a : Addon) (force_insert force_update : bool)
            (update_fields : option (list string))
| ModelDelete (a : Addon)
| EventCreate (ev : Event)
| EventsDelete (rows : list Event).

(** ** Store, results and the dispatch monad *)

Section Model.

(** Everything the host application and the add-on implementations keep
    outside the three tables below (repository checkouts, alerts, caches,
    log files).  The module never inspects it. *)
Variable HostState : Type.

Record Store : Type := mkStore {
  addon_table : list Addon;
  event_table : list Event;
  change_table : list Change;
  event_seq : nat;
  host : HostState
}.

(** The outcome of running a piece of the module: the calls made, the store
    left behind (side effects made before an exception stay), and the value
    or the exception. *)
Record Out (A : Type) : Type := mkOut {
  out_trace : list Call;
  out_store : Store;
  out_res : Result A
}.

Definition M (A : Type) : Type := Store -> Out A.

(** A method of an add-on object: it receives the installation the object
    was built from and the call arguments, may do anything to the store, and
    returns or raises. *)
Definition Method : Type := Addon -> Args -> Store -> Store * Result unit.

(** What the module uses of an add-on class: the two scope flags, the alert
    attribute, attribute lookup by name ([hasattr]/[getattr]), the
    [can_install] class method and the [post_uninstall] hook.  An attribute
    that cannot be called, or not with the arguments it is given, is a
    method that raises [TypeError]. *)
Record AddonClass : Type := mkAddonClass {
  cls_project_scope : bool;
  cls_repo_scope : bool;
  cls_alert : option string;
  cls_getattr : string -> option Method;
  cls_can_install : Component -> Store -> Store * Result bool;
  cls_post_uninstall : Addon -> Store -> Store * Result unit
}.

(** A live add-on object: the class applied to the installation. *)
Record AddonObject : Type := mkAddonObject {
  obj_class : AddonClass;
  instance : Addon
}.

(** The parts of the repository and of the framework that this module
    imports and that are defined elsewhere. *)
Class Host : Type := mkHost {
  (** what a call into the host (logging, reporting, spans, cache and alert
      maintenance) does to the host state *)
  host_effect : Call -> HostState -> HostState;
  (** [weblate.addons.events.EVENT_STRING], a dictionary *)
  EVENT_STRING : EventType -> option string;
  (** [ADDONS = ClassLoader("WEBLATE_ADDONS", False)], indexed by name *)
  ADDONS : string -> option AddonClass;
  (** [Component.addons_cache], a [defaultdict(list)] indexed by event *)
  addons_cache : Component -> EventType -> list Addon;
  (** [models.Model.save]: writes the row and yields its primary key *)
  model_save : Addon -> bool -> bool -> option (list string) ->
               Store -> Store * Result nat;
  (** [weblate.utils.decorators.disable_for_loaddata]: a decorator around a
      [post_save] receiver, which also sees the rest of the signal's
      keyword arguments *)
  disable_for_loaddata : (Unit -> bool -> M unit) ->
                         Unit -> bool -> Kwargs -> M unit
}.

Context {H : Host}.

Definition ret {A : Type} (a : A) : M A :=
  fun w => mkOut [] w (Ok a).

Definition raise {A : Type} (e : Exn) : M A :=
  fun w => mkOut [] w (Raise e).

(** [prepend t o]: the outcome [o], reached after the calls [t]. *)
Definition prepend {A : Type} (t : list Call) (o : Out A) : Out A :=
  mkOut (t ++ out_trace o) (out_store o) (out_res o).

Definition bind {A B : Type} (m : M A) (f : A -> M B) : M B :=
  fun w =>
    let o := m w in
    match out_res o with
    | Ok a => prepend (out_trace o) (f a (out_store o))
    | Raise e => mkOut (out_trace o) (out_store o) (Raise e)
    end.

Notation "x <- m ;; k" := (bind m (fun x => k))
  (at level 61, m at next level, right associativity).
Notation "m ;;; k" := (bind m (fun _ => k))
  (at level 61, right associativity).

Definition lift {A : Type} (r : Result A) : M A :=
  match r with
  | Ok a => ret a
  | Raise e => raise e
  end.

Definition set_host (w : Store) (h : HostState) : Store :=
  mkStore (addon_table w) (event_table w) (change_table w) (event_seq w) h.

(** A call into the host: recorded, and the host state moves on. *)
Definition emit (c : Call) : M unit :=
  fun w => mkOut [c] (set_host w (host_effect c (host w))) (Ok tt).

(** A call into add-on or framework code: recorded, and the callee decides
    what happens to the store and whether it returns or raises. *)
Definition call_ext {A : Type} (c : Call) (f : Store -> Store * Result A) : M A :=
  fun w => mkOut [c] (fst (f w)) (snd (f w)).

(** [with cm: body]: the exit of the context manager runs whether the body
    returns or raises, and the outcome of the body is the outcome of the
    block. *)
Definition with_ {A : Type} (enter leave : Call) (body : M A) : M A :=
  fun w =>
    let o1 := emit enter w in
    let o2 := body (out_store o1) in
    let o3 := emit leave (out_store o2) in
    mkOut (out_trace o1 ++ out_trace o2 ++ out_trace o3)
          (out_store o3) (out_res o2).

(** The statement both dispatch loops are built around:
<<
    try: body
    except DjangoDatabaseError: raise
    except Exception: on_exception
    else: orelse
>> *)
Definition try_except_else (body on_exception orelse : M unit) : M unit :=
  fun w =>
    let o := body w in
    match out_res o with
    | Ok _ => prepend (out_trace o) (orelse (out_store o))
    | Raise e =>
        if is_database_error e then o
        else prepend (out_trace o) (on_exception (out_store o))
    end.

(** [for x in l: body x]; an exception leaves the loop. *)
Fixpoint for_each {A : Type} (l : list A) (body : A -> M unit) : M unit :=
  match l with
  | [] => ret tt
  | x :: rest => body x ;;; for_each rest body
  end.

(** Logging is a method of components and translations only. *)
Definition log_debug (target : PyVal) (fmt : string) (args : list string) : M unit :=
  match target with
  | VComponent _ | VTranslation _ => emit (LogDebug target fmt args)
  | _ => raise (AttributeError "log_debug")
  end.

(** ** class AddonQuerySet *)

(** [filter_component]: the four disjuncts of the [Q] filter, evaluated on a
    row.  A lookup against [None] ([component.linked_component] unset, or
    the row's component not linked) selects nothing. *)
Definition filter_component_q (c : Component) (a : Addon) : bool :=
  (same_component (component a) c && negb (project_scope a))
  || (same_project (project (component a)) (project c) && project_scope a)
  || (match linked_component (component a) with
      | Some l => same_component l c
      | None => false
      end && repo_scope a)
  || (match linked_component c with
      | Some l => same_component (component a) l
      | None => false
      end && repo_scope a).

Definition filter_component (self : list Addon) (c : Component) : list Addon :=
  filter (filter_component_q c) self.

Definition filter_event (c : Component) (event : EventType) : list Addon :=
  addons_cache c event.

(** ** class Addon *)

(** [addon_class] and [addon] are cached properties: the lookup is done on
    first access and its value kept on the object.  Neither the name of an
    installation nor the registry is assigned anywhere in the module, so the
    kept value is the value of the lookup. *)
Definition addon_class (self : Addon) : Result AddonClass :=
  match ADDONS (name self) with
  | Some cls => Ok cls
  | None => Raise (KeyError (name self))
  end.

Definition addon (self : Addon) : Result AddonObject :=
  match addon_class self with
  | Ok cls => Ok (mkAddonObject cls self)
  | Raise e => Raise e
  end.

Definition store_change (self : Addon) (action : ChangeAction) : M unit :=
  fun w =>
    let ch := mkChange action (acting_user (component self)) (component self)
                       (name self) (configuration self) in
    mkOut [ChangeCreate ch]
          (mkStore (addon_table w) (event_table w) (change_table w ++ [ch])
                   (event_seq w) (host w))
          (Ok tt).

(** [self.pk or force_insert] *)
Definition pk_or (pk : option nat) (force_insert : bool) : bool :=
  match pk with
  | Some (S _) => true
  | _ => force_insert
  end.

(** [update_fields != ["state"]] *)
Definition not_state_only (update_fields : option (list string)) : bool :=
  match update_fields with
  | Some [f] => negb (String.eqb f "state")
  | _ => true
  end.

Definition set_scopes (self : Addon) (ps rs : bool) : Addon :=
  mkAddon (addon_pk self) (component self) (name self) (configuration self)
          (state self) ps rs.

Definition set_component (self : Addon) (c : Component) : Addon :=
  mkAddon (addon_pk self) c (name self) (configuration self) (state self)
          (project_scope self) (repo_scope self).

Definition set_pk (self : Addon) (k : nat) : Addon :=
  mkAddon (Some k) (component self) (name self) (configuration self)
          (state self) (project_scope self) (repo_scope self).

(** "Reallocate to repository" *)
Definition reallocate (self : Addon) : Addon :=
  if repo_scope self then
    match linked_component (component self) with
    | Some l => set_component self l
    | None => self
    end
  else self.

(** The assignments [save] makes to [self] before anything is written. *)
Definition save_prepare (cls : AddonClass) (self : Addon) : Addon :=
  reallocate (set_scopes self (cls_project_scope cls) (cls_repo_scope cls)).

(** [Addon.save]; the result is [self] as the call leaves it.  The database
    alias [using] is handed through unchanged and left out. *)
Definition save (self : Addon) (force_insert force_update : bool)
                (update_fields : option (list string)) : M Addon :=
  cls <- lift (addon_class self) ;;
  let self' := save_prepare cls self in
  emit (DropAddonsCache (component self')) ;;;
  (if not_state_only update_fields then
     store_change self'
       (if pk_or (addon_pk self') force_insert
        then ACTION_ADDON_CREATE else ACTION_ADDON_CHANGE)
   else ret tt) ;;;
  k <- call_ext (ModelSave self' force_insert force_update update_fields)
                (model_save self' force_insert force_update update_fields) ;;
  ret (set_pk self' k).

(** [Event.objects.get_or_create(addon=self, event=event)] for a saved
    installation with primary key [k]. *)
Definition event_matches (k : nat) (event : EventType) (r : Event) : bool :=
  Nat.eqb (event_addon r) k && EventType_eqb (event_event r) event.

Definition get_or_create (k : nat) (event : EventType) : M Event :=
  fun w =>
    match filter (event_matches k event) (event_table w) with
    | [] =>
        let r := mkEvent (event_seq w) k event in
        mkOut [EventCreate r]
              (mkStore (addon_table w) (event_table w ++ [r]) (change_table w)
                       (S (event_seq w)) (host w))
              (Ok r)
    | [r] => mkOut [] w (Ok r)
    | _ => mkOut [] w (Raise MultipleObjectsReturned)
    end.

(** [self.event_set.exclude(event__in=events)]: the rows to delete. *)
Definition event_excluded (k : nat) (events : list EventType) (r : Event) : bool :=
  Nat.eqb (event_addon r) k
  && negb (existsb (EventType_eqb (event_event r)) events).

Definition delete_excluded (k : nat) (events : list EventType) : M unit :=
  fun w =>
    mkOut [EventsDelete (filter (event_excluded k events) (event_table w))]
          (mkStore (addon_table w)
                   (filter (fun r => negb (event_excluded k events r))
                           (event_table w))
                   (change_table w) (event_seq w) (host w))
          (Ok tt).

(** [Addon.configure_events].  Related objects of an installation that has
    no primary key yet cannot be queried: the framework raises. *)
Definition configure_events (self : Addon) (events : list EventType) : M unit :=
  match addon_pk self with
  | None => raise (ValueError "unsaved related object")
  | Some k =>
      for_each events (fun event => _ <- get_or_create k event ;; ret tt) ;;;
      delete_excluded k events
  end.

(** [models.Model.delete]: the row goes, and with it the subscriptions, whose
    foreign key is declared [on_delete=CASCADE]. *)
Definition has_pk (k : nat) (a : Addon) : bool :=
  match addon_pk a with
  | Some j => Nat.eqb j k
  | None => false
  end.

Definition model_delete (self : Addon) : M unit :=
  fun w =>
    match addon_pk self with
    | None => mkOut [] w (Raise (ValueError "pk is None"))
    | Some k =>
        mkOut [ModelDelete self]
              (mkStore (filter (fun a => negb (has_pk k a)) (addon_table w))
                       (filter (fun r => negb (Nat.eqb (event_addon r) k))
                               (event_table w))
                       (change_table w) (event_seq w) (host w))
              (Ok tt)
    end.

(** [if self.addon.alert:] holds for a non-empty alert name. *)
Definition alert_of (cls : AddonClass) : option string :=
  match cls_alert cls with
  | Some "" => None
  | other => other
  end.

(** [Addon.delete] *)
Definition Addon_delete (self : Addon) : M unit :=
  store_change self ACTION_ADDON_REMOVE ;;;
  obj <- lift (addon self) ;;
  match alert_of (obj_class obj) with
  | Some alert => emit (DeleteAlert (component self) alert)
  | None => ret tt
  end ;;;
  model_delete self ;;;
  call_ext (PostUninstall self) (cls_post_uninstall (obj_class obj) self).

(** [Addon.disable] *)
Definition disable (self : Addon) : M unit :=
  emit (LogWarning (component self)
                   "disabling no longer compatible add-on: %s" [name self]) ;;;
  Addon_delete self.

(** ** Dispatch *)

Definition handle_addon_error (a : Addon) (c : Component) : M unit :=
  emit (ReportError ("add-on " ++ name a ++ " failed") (project c)) ;;;
  obj <- lift (addon a) ;;
  ok <- call_ext (CanInstall a c) (cls_can_install (obj_class obj) c) ;;
  if negb ok then disable a else ret tt.

(** The body of the [with] block of [handle_addon_event]. *)
Definition event_call (event_string : string) (kwargs : Kwargs) (a : Addon) : M unit :=
  addon_object <- lift (addon a) ;;
  match cls_getattr (obj_class addon_object) event_string with
  | Some method =>
      call_ext (Invoke a event_string (KwArgs kwargs)) (method a (KwArgs kwargs))
  | None => ret tt
  end.

(** The [try] block of [handle_addon_event]. *)
Definition event_attempt (event_string : string) (kwargs : Kwargs) (a : Addon) : M unit :=
  with_ (SpanStart ("addon." ++ event_string) (name a)) SpanFinish
        (event_call event_string kwargs a).

(** One turn of the loop of [handle_addon_event]. *)
Definition event_step (c : Component) (event_string : string)
                      (kwargs : Kwargs) (a : Addon) : M unit :=
  let translation := kwargs_get kwargs "translation" in
  log_debug translation
            ("running " ++ event_string ++ " add-on: " ++ name a) [] ;;;
  try_except_else
    (event_attempt event_string kwargs a)
    (handle_addon_error a c)
    (log_debug translation
               ("completed " ++ event_string ++ " add-on: " ++ name a) []).

(** [handle_addon_event(sender, component, event_type, **kwargs)]; no
    receiver uses [sender]. *)
Definition handle_addon_event (c : Component) (event_type : EventType)
                              (kwargs : Kwargs) : M unit :=
  match EVENT_STRING event_type with
  | None => raise (KeyError "EVENT_STRING")
  | Some event_string =>
      for_each (filter_event c event_type) (event_step c event_string kwargs)
  end.

(** ** Signal receivers *)



(** The body of the [with] block of [post_update]: the method is reached by
    plain attribute access, which raises when the attribute is missing. *)
Definition post_update_call (c : Component) (previous_head : string)
                            (skip_push : bool) (a : Addon) : M unit :=
  let args := PosArgs [VComponent c; VStr previous_head; VBool skip_push] in
  addon_object <- lift (addon a) ;;
  match cls_getattr (obj_class addon_object) "post_update" with
  | Some method => call_ext (Invoke a "post_update" args) (method a args)
  | None => raise (AttributeError "post_update")
  end.

Definition post_update_attempt (c : Component) (previous_head : string)
                               (skip_push : bool) (a : Addon) : M unit :=
  with_ (SpanStart "addon.post_update" (name a)) SpanFinish
        (post_update_call c previous_head skip_push a).

(** One turn of the loop of [post_update]. *)
Definition post_update_step (c : Component) (previous_head : string)
                            (child skip_push : bool) (a : Addon) : M unit :=
  if child && repo_scope a then ret tt
  else
    emit (LogDebug (VComponent c) "running post_update add-on: %s" [name a]) ;;;
    try_except_else
      (post_update_attempt c previous_head skip_push a)
      (handle_addon_error a c)
      (emit (LogDebug (VComponent c)
                      "completed post_update add-on: %s" [name a])).

Definition post_update (c : Component) (previous_head : string)
                       (child skip_push : bool) : M unit :=
  for_each (filter_event c EVENT_POST_UPDATE)
           (post_update_step c previous_head child skip_push).



Definition pre_commit (translation : Translation) (author : PyVal) : M unit :=
  let c := translation_component translation in
  handle_addon_event c EVENT_PRE_COMMIT
    [("translation", VTranslation translation); ("store", author)].











End Model.

(** ** Vocabulary of the properties *)

(** The scope rules in words: an installation applies to a component when it
    is attached to that very component and is not project-wide; or is
    project-wide and attached to a component of the same project; or is
    repository-wide and attached to a component that is linked with it, in
    one direction or the other. *)
Definition attached_directly (c : Component) (a : Addon) : Prop :=
  component_pk (component a) = component_pk c /\ project_scope a = false.

Definition attached_in_project (c : Component) (a : Addon) : Prop :=
  project_pk (project (component a)) = project_pk (project c)
  /\ project_scope a = true.

Definition linked_by_repository (c d : Component) : Prop :=
  (exists l, linked_component d = Some l /\ component_pk l = component_pk c)
  \/ (exists l, linked_component c = Some l /\ component_pk d = component_pk l).

Definition attached_in_repository (c : Component) (a : Addon) : Prop :=
  linked_by_repository c (component a) /\ repo_scope a = true.

Definition applies_to (c : Component) (a : Addon) : Prop :=
  attached_directly c a \/ attached_in_project c a \/ attached_in_repository c a.

(** A value that has a [log_debug] method. *)
Definition loggable (v : PyVal) : bool :=
  match v with
  | VComponent _ | VTranslation _ => true
  | _ => false
  end.

(** The installations whose handlers a trace shows as called, in order. *)
Fixpoint invoked (t : list Call) : list Addon :=
  match t with
  | [] => []
  | Invoke a _ _ :: t' => a :: invoked t'
  | _ :: t' => invoked t'
  end.





(** A call that neither opens or closes a span nor runs a handler. *)
Definition quiet (c : Call) : bool :=
  match c with
  | SpanStart _ _ | SpanFinish | Invoke _ _ _ => false
  | _ => true
  end.



(** Links do not chain: what a component links to is not itself a link. *)
Definition link_is_repository (c : Component) : Prop :=
  forall l, linked_component c = Some l -> linked_component l = None.

Section Vocabulary.

Context {HostState : Type} {H : Host HostState}.

(** The installation resolves to an object that has the named method. *)
Definition has_handler (m : string) (a : Addon) : bool :=
  match addon a with
  | Ok obj =>
      match cls_getattr (obj_class obj) m with
      | Some _ => true
      | None => false
      end
  | Raise _ => false
  end.

(** The two dispatch loops of the module, [handle_addon_event] and
    [post_update], side by side: the dispatch itself, the add-ons it turns
    over, the turn of the loop, the [try] block of a turn, the log line that
    precedes it, whether the turn reaches the [try] block at all, and the
    log line of the [else] branch. *)
Inductive Loop : Type :=
| EventLoop (event_type : EventType) (event_string : string) (kwargs : Kwargs)
| PostUpdateLoop (previous_head : string) (child skip_push : bool).

(** The name an [EventLoop] carries is the one [EVENT_STRING] gives. *)
Definition loop_ok (l : Loop) : Prop :=
  match l with
  | EventLoop e s _ => EVENT_STRING e = Some s
  | PostUpdateLoop _ _ _ => True
  end.

Definition loop_run (l : Loop) (c : Component) : M HostState unit :=
  match l with
  | EventLoop e _ kw => handle_addon_event c e kw
  | PostUpdateLoop p child skip => post_update c p child skip
  end.

Definition loop_addons (l : Loop) (c : Component) : list Addon :=
  match l with
  | EventLoop e _ _ => filter_event c e
  | PostUpdateLoop _ _ _ => filter_event c EVENT_POST_UPDATE
  end.

Definition loop_step (l : Loop) (c : Component) : Addon -> M HostState unit :=
  match l with
  | EventLoop _ s kw => event_step c s kw
  | PostUpdateLoop p child skip => post_update_step c p child skip
  end.

Definition loop_attempt (l : Loop) (c : Component) : Addon -> M HostState unit :=
  match l with
  | EventLoop _ s kw => event_attempt s kw
  | PostUpdateLoop p child skip => post_update_attempt c p skip
  end.

Definition loop_running (l : Loop) (c : Component) (a : Addon) : Call :=
  match l with
  | EventLoop _ s kw =>
      LogDebug (kwargs_get kw "translation")
               ("running " ++ s ++ " add-on: " ++ name a) []
  | PostUpdateLoop _ _ _ =>
      LogDebug (VComponent c) "running post_update add-on: %s" [name a]
  end.

Definition loop_completed (l : Loop) (c : Component) (a : Addon) : Call :=
  match l with
  | EventLoop _ s kw =>
      LogDebug (kwargs_get kw "translation")
               ("completed " ++ s ++ " add-on: " ++ name a) []
  | PostUpdateLoop _ _ _ =>
      LogDebug (VComponent c) "completed post_update add-on: %s" [name a]
  end.

Definition loop_enters (l : Loop) (a : Addon) : bool :=
  match l with
  | EventLoop _ _ kw => loggable (kwargs_get kw "translation")
  | PostUpdateLoop _ child _ => negb (child && repo_scope a)
  end.

(** The store in which the [try] block of a turn starts. *)
Definition loop_start (l : Loop) (c : Component) (a : Addon)
                      (w : Store HostState) : Store HostState :=
  out_store (emit (loop_running l c a) w).

(** The history entry [Addon.delete] writes. *)
Definition removal (a : Addon) : Change :=
  mkChange ACTION_ADDON_REMOVE (acting_user (component a)) (component a)
           (name a) (configuration a).

Definition report (a : Addon) (c : Component) : Call :=
  ReportError ("add-on " ++ name a ++ " failed") (project c).




(** The calls [Addon.delete] makes for an installation of class [cls]. *)
Definition delete_calls (cls : AddonClass HostState) (a : Addon) : list Call :=
  ChangeCreate (removal a)
  :: match alert_of cls with
     | Some alert => [DeleteAlert (component a) alert]
     | None => []
     end
  ++ [ModelDelete a; PostUninstall a].

(** The store in which [post_uninstall] runs when the installation with
    primary key [k] is deleted in [w]. *)
Definition deleted_store (cls : AddonClass HostState) (a : Addon) (k : nat)
                         (w : Store HostState) : Store HostState :=
  mkStore (filter (fun r => negb (has_pk k r)) (addon_table w))
          (filter (fun r => negb (Nat.eqb (event_addon r) k)) (event_table w))
          (change_table w ++ [removal a])
          (event_seq w)
          match alert_of cls with
          | Some alert => host_effect (DeleteAlert (component a) alert) (host w)
          | None => host w
          end.

(** The calls that write the subscription table. *)
Definition subscription_write (c : Call) : bool :=
  match c with
  | EventCreate _ | EventsDelete _ => true
  | _ => false
  end.

(** The span a turn opens around its [try] block. *)
Definition loop_span (l : Loop) (a : Addon) : Call :=
  match l with
  | EventLoop _ s _ => SpanStart ("addon." ++ s) (name a)
  | PostUpdateLoop _ _ _ => SpanStart "addon.post_update" (name a)
  end.

(** The value the turns of a loop log to has a [log_debug] method. *)
Definition loop_logs (l : Loop) : bool :=
  match l with
  | EventLoop _ _ kw => loggable (kwargs_get kw "translation")
  | PostUpdateLoop _ _ _ => true
  end.

(** The calls of the error path: reporting, the [can_install] question, and
    everything [Addon.disable] does. *)
Definition alarm (c : Call) : bool :=
  match c with
  | ReportError _ _ | CanInstall _ _ | LogWarning _ _ _ | ChangeCreate _
  | DeleteAlert _ _ | ModelDelete _ | PostUninstall _ => true
  | _ => false
  end.

(** A computation is quiet when none of its calls opens or closes a span or
    runs a handler. *)
Definition Quiet {A : Type} (m : M HostState A) : Prop :=
  forall w, Forall (fun c => quiet c = true) (out_trace (m w)).

(** The two shapes the outcome of a turn for [a] can have: nothing but quiet
    calls (the turn was skipped, or stopped before its [try] block), which
    cannot end well if the handler was due to run; or one span around at
    most the one handler call, between quiet calls. *)
Inductive Turn (a : Addon) (m : string) (args : Args) (runs : bool)
  : Out HostState unit -> Prop :=
| turn_quiet : forall o,
    Forall (fun c => quiet c = true) (out_trace o) ->
    (runs = true -> forall v, out_res o <> Ok v) ->
    Turn a m args runs o
| turn_span : forall o pre op description tail,
    out_trace o
    = pre ++ SpanStart op description
          :: (if runs then [Invoke a m args] else []) ++ SpanFinish :: tail ->
    Forall (fun c => quiet c = true) pre ->
    Forall (fun c => quiet c = true) tail ->
    Turn a m args runs o.

End Vocabulary.

(** ** A small installation, used by the examples *)

Module Demo.

(** The host state counts the calls the host has seen; the handlers below
    add larger amounts, so that their runs can be told apart. *)
Definition HostState : Type := nat.

Definition upstream : Component := mkComponent 1 (mkProject 1) None None.
Definition docs : Component := mkComponent 2 (mkProject 1) (Some upstream) None.
Definition mirror : Component := mkComponent 3 (mkProject 2) (Some docs) None.

Definition bump (n : nat) (w : Store HostState) : Store HostState :=
  set_host w (n + host w).

Definition steady_method : Method HostState :=
  fun _ _ w => (bump 20 w, Ok tt).

Definition broken_method : Method HostState :=
  fun _ _ w => (bump 30 w, Raise (PyException "RuntimeError" "boom")).

Definition dberror_method : Method HostState :=
  fun _ _ w => (bump 40 w, Raise (DjangoDatabaseError "connection lost")).

Definition steady_cls : AddonClass HostState :=
  mkAddonClass false false None (fun _ => Some steady_method)
               (fun _ w => (w, Ok true)) (fun _ w => (w, Ok tt)).

Definition broken_cls : AddonClass HostState :=
  mkAddonClass false false (Some "BrokenAddon") (fun _ => Some broken_method)
               (fun _ w => (w, Ok false)) (fun _ w => (bump 5 w, Ok tt)).

Definition flaky_cls : AddonClass HostState :=
  mkAddonClass false false None (fun _ => Some broken_method)
               (fun _ w => (w, Ok true)) (fun _ w => (w, Ok tt)).

Definition dberror_cls : AddonClass HostState :=
  mkAddonClass false false None (fun _ => Some dberror_method)
               (fun _ w => (w, Ok false)) (fun _ w => (w, Ok tt)).

Definition plain_cls : AddonClass HostState :=
  mkAddonClass true false None (fun _ => None)
               (fun _ w => (w, Ok true)) (fun _ w => (w, Ok tt)).

Definition squash_cls : AddonClass HostState :=
  mkAddonClass false true None (fun _ => Some steady_method)
               (fun _ w => (w, Ok true)) (fun _ w => (w, Ok tt)).

Definition registry (n : string) : option (AddonClass HostState) :=
  if String.eqb n "demo.steady" then Some steady_cls
  else if String.eqb n "demo.broken" then Some broken_cls
  else if String.eqb n "demo.flaky" then Some flaky_cls
  else if String.eqb n "demo.dberror" then Some dberror_cls
  else if String.eqb n "demo.plain" then Some plain_cls
  else if String.eqb n "demo.squash" then Some squash_cls
  else None.

Definition a_broken : Addon := mkAddon (Some 10) upstream "demo.broken" "{}" "{}" false false.
Definition a_steady : Addon := mkAddon (Some 11) upstream "demo.steady" "{}" "{}" false false.
Definition a_dberror : Addon := mkAddon (Some 12) upstream "demo.dberror" "{}" "{}" false false.
Definition a_plain : Addon := mkAddon (Some 13) upstream "demo.plain" "{}" "{}" true false.
Definition a_flaky : Addon := mkAddon (Some 14) upstream "demo.flaky" "{}" "{}" false false.
Definition a_squash : Addon := mkAddon (Some 15) upstream "demo.squash" "{}" "{}" false true.

(** A repository-wide add-on about to be installed on [mirror], a component
    that links to [docs], itself a link to [upstream]. *)
Definition a_new_squash : Addon :=
  mkAddon None mirror "demo.squash" "{}" "{}" true false.

(** The same add-on about to be installed on [docs]. *)
Definition a_docs_squash : Addon :=
  mkAddon None docs "demo.squash" "{}" "{}" true false.

Definition event_names (e : EventType) : option string :=
  Some match e with
       | EVENT_COMPONENT_UPDATE => "component_update"
       | EVENT_POST_ADD => "post_add"
       | EVENT_POST_COMMIT => "post_commit"
       | EVENT_POST_PUSH => "post_push"
       | EVENT_POST_UPDATE => "post_update"
       | EVENT_PRE_COMMIT => "pre_commit"
       | EVENT_PRE_PUSH => "pre_push"
       | EVENT_PRE_UPDATE => "pre_update"
       | EVENT_STORE_POST_LOAD => "store_post_load"
       | EVENT_UNIT_POST_SAVE => "unit_post_save"
       | EVENT_UNIT_PRE_CREATE => "unit_pre_create"
       end.

Definition cache (c : Component) (e : EventType) : list Addon :=
  match e with
  | EVENT_PRE_PUSH => [a_broken; a_steady]
  | EVENT_POST_PUSH => [a_dberror; a_steady]
  | EVENT_PRE_UPDATE => [a_plain; a_steady]
  | EVENT_POST_UPDATE => [a_plain; a_squash]
  | EVENT_PRE_COMMIT => [a_steady; a_plain; a_squash]
  | EVENT_POST_COMMIT => [a_steady; a_flaky; a_plain]
  | _ => []
  end.

Definition write_row (a : Addon) (force_insert force_update : bool)
    (update_fields : option (list string)) (w : Store HostState)
    : Store HostState * Result nat :=
  let k := match addon_pk a with Some k => k | None => 99 end in
  (mkStore (addon_table w ++ [set_pk a k]) (event_table w) (change_table w)
           (event_seq w) (host w), Ok k).

Definition skip_raw (f : Unit -> bool -> M HostState unit)
    (instance : Unit) (created : bool) (kwargs : Kwargs) : M HostState unit :=
  match kwargs_get kwargs "raw" with
  | VBool true => ret tt
  | _ => f instance created
  end.

#[export] Instance demo_host : Host HostState :=
  mkHost (fun _ n => S n) event_names registry cache write_row skip_raw.

Definition w0 : Store HostState :=
  mkStore [a_broken; a_steady; a_dberror; a_plain; a_flaky; a_squash]
          [mkEvent 1 10 EVENT_PRE_PUSH; mkEvent 2 11 EVENT_PRE_PUSH;
           mkEvent 3 12 EVENT_POST_PUSH; mkEvent 4 11 EVENT_POST_PUSH;
           mkEvent 5 11 EVENT_PRE_COMMIT]
          [] 6 0.

Definition push_kwargs : Kwargs := [("translation", VComponent upstream)].

Definition pre_push_loop : Loop :=
  EventLoop EVENT_PRE_PUSH "pre_push" push_kwargs.

Definition post_commit_loop : Loop :=
  EventLoop EVENT_POST_COMMIT "post_commit" push_kwargs.


End Demo.

(** The same installation with one more add-on, whose class has been taken
    out of the registry. *)
Module Demo2.

Import Demo.

Definition a_ghost : Addon := mkAddon (Some 16) upstream "demo.ghost" "{}" "{}" false false.

(** An installation that has not been saved yet. *)
Definition a_unsaved : Addon := mkAddon None upstream "demo.steady" "{}" "{}" false false.

Definition cache (c : Component) (e : EventType) : list Addon :=
  match e with
  | EVENT_POST_ADD => [a_steady; a_ghost; a_steady]
  | EVENT_POST_UPDATE => [a_steady; a_squash]
  | _ => []
  end.

Definition ghost_host : Host HostState :=
  mkHost (fun _ n => S n) event_names registry cache write_row skip_raw.

Definition post_add_loop : Loop :=
  EventLoop EVENT_POST_ADD "post_add" push_kwargs.

Definition pre_commit_loop : Loop :=
  EventLoop EVENT_PRE_COMMIT "pre_commit" push_kwargs.

Definition post_update_loop : Loop := PostUpdateLoop "head" false false.

(** A subscription table in which the constraint is broken. *)
Definition w_broken : Store HostState :=
  mkStore [a_steady]
          [mkEvent 1 11 EVENT_PRE_PUSH; mkEvent 2 11 EVENT_PRE_PUSH]
          [] 3 0.

End Demo2.

(** * Properties *)



(** ** Scope resolution *)

Lemma same_component_eq (c d : Component) :
  same_component c d = true <-> component_pk c = component_pk d.
Proof. unfold same_component. apply Nat.eqb_eq. Qed.

Lemma same_project_eq (p q : Project) :
  same_project p q = true <-> project_pk p = project_pk q.
Proof. unfold same_project. apply Nat.eqb_eq. Qed.

Lemma linked_to_spec (o : option Component) (c : Component) :
  match o with Some l => same_component l c | None => false end = true
  <-> exists l, o = Some l /\ component_pk l = component_pk c.
Proof.
  destruct o as [l|]; split.
  - intros E. exists l. split; [reflexivity | now apply same_component_eq].
  - intros [l' [E P]]. injection E as <-. now apply same_component_eq.
  - discriminate.
  - intros [l' [E _]]. discriminate.
Qed.

Lemma linked_from_spec (o : option Component) (d : Component) :
  match o with Some l => same_component d l | None => false end = true
  <-> exists l, o = Some l /\ component_pk d = component_pk l.
Proof.
  destruct o as [l|]; split.
  - intros E. exists l. split; [reflexivity | now apply same_component_eq].
  - intros [l' [E P]]. injection E as <-. now apply same_component_eq.
  - discriminate.
  - intros [l' [E _]]. discriminate.
Qed.

(** The filter of the query is the scope rule, row by row. *)
Lemma filter_component_q_spec (c : Component) (a : Addon) :
  filter_component_q c a = true <-> applies_to c a.
Proof.
  unfold filter_component_q, applies_to, attached_directly,
    attached_in_project, attached_in_repository, linked_by_repository.
  rewrite !orb_true_iff, !andb_true_iff, negb_true_iff.
  rewrite same_component_eq, same_project_eq, linked_to_spec, linked_from_spec.
  tauto.
Qed.

(** C2.  For every component, [filter_component] returns exactly the
    installations of the table that satisfy one of the three scope rules
    (attached to the component itself and not project-wide; project-wide and
    attached to a component of the same project; repository-wide and
    attached to a component linked with it, in either direction); it keeps
    the rows in table order, each row being judged on its own. *)
Theorem filter_component_scope_rules :
  forall (tbl : list Addon) (c : Component),
    (forall a, In a (filter_component tbl c) <-> In a tbl /\ applies_to c a)
    /\ (forall tbl', filter_component (tbl ++ tbl') c
                     = filter_component tbl c ++ filter_component tbl' c)
    /\ (forall a, filter_component [a] c = [a] \/ filter_component [a] c = []).
Proof.
  intros tbl c. unfold filter_component. split; [|split].
  - intros a. rewrite filter_In, filter_component_q_spec. tauto.
  - intros tbl'. apply filter_app.
  - intros a. simpl. destruct (filter_component_q c a); [now left | now right].
Qed.

Section Properties.

Context {HostState : Type} {H : Host HostState}.

#[local] Abbreviation Store := (Store HostState).
#[local] Abbreviation M := (M HostState).
#[local] Abbreviation Quiet := (Quiet (HostState:=HostState)).

(** ** Sequencing *)

Lemma out_eta {A : Type} (o : Out HostState A) :
  o = mkOut (out_trace o) (out_store o) (out_res o).
Proof. now destruct o. Qed.

Lemma prepend_nil {A : Type} (o : Out HostState A) : prepend [] o = o.
Proof. now destruct o. Qed.

Lemma prepend_trace {A : Type} (t : list Call) (o : Out HostState A) :
  out_trace (prepend t o) = t ++ out_trace o.
Proof. reflexivity. Qed.

Lemma prepend_prepend {A : Type} (t u : list Call) (o : Out HostState A) :
  prepend t (prepend u o) = prepend (t ++ u) o.
Proof. unfold prepend. simpl. now rewrite app_assoc. Qed.

Lemma bind_ok {A B : Type} (m : M A) (f : A -> M B) (w : Store) (a : A) :
  out_res (m w) = Ok a ->
  bind m f w = prepend (out_trace (m w)) (f a (out_store (m w))).
Proof. intros E. unfold bind. now rewrite E. Qed.

Lemma bind_raise {A B : Type} (m : M A) (f : A -> M B) (w : Store) (e : Exn) :
  out_res (m w) = Raise e ->
  bind m f w = mkOut (out_trace (m w)) (out_store (m w)) (Raise e).
Proof. intros E. unfold bind. now rewrite E. Qed.

Lemma bind_trace {A B : Type} (m : M A) (f : A -> M B) (w : Store) :
  out_trace (bind m f w)
  = out_trace (m w)
    ++ match out_res (m w) with
       | Ok a => out_trace (f a (out_store (m w)))
       | Raise _ => []
       end.
Proof.
  unfold bind. destruct (out_res (m w)); simpl; [reflexivity|].
  now rewrite app_nil_r.
Qed.

Lemma for_each_cons {A : Type} (x : A) (l : list A) (body : A -> M unit) (w : Store) :
  for_each (x :: l) body w
  = match out_res (body x w) with
    | Ok _ => prepend (out_trace (body x w)) (for_each l body (out_store (body x w)))
    | Raise e => mkOut (out_trace (body x w)) (out_store (body x w)) (Raise e)
    end.
Proof. reflexivity. Qed.

Lemma for_each_app {A : Type} (pre l : list A) (body : A -> M unit) :
  forall (w : Store) (v : unit),
    out_res (for_each pre body w) = Ok v ->
    for_each (pre ++ l) body w
    = prepend (out_trace (for_each pre body w))
              (for_each l body (out_store (for_each pre body w))).
Proof.
  induction pre as [|x pre IH]; intros w v E.
  - simpl. now rewrite prepend_nil.
  - simpl app. rewrite for_each_cons in E. rewrite !for_each_cons.
    destruct (out_res (body x w)) as [u|e]; [|discriminate].
    cbn [out_res prepend] in E. rewrite (IH _ _ E).
    rewrite prepend_prepend. reflexivity.
Qed.

(** Whatever a loop calls, one of its turns calls. *)
Lemma for_each_trace_In {A : Type} (l : list A) (body : A -> M unit) :
  forall (w : Store) (c : Call),
    In c (out_trace (for_each l body w)) ->
    exists x w', In x l /\ In c (out_trace (body x w')).
Proof.
  induction l as [|x l IH]; intros w c I.
  - contradiction.
  - rewrite for_each_cons in I.
    destruct (out_res (body x w)).
    + simpl in I. apply in_app_or in I. destruct I as [I|I].
      * exists x, w. split; [now left | exact I].
      * destruct (IH _ _ I) as [y [w' [Iy Ic]]].
        exists y, w'. split; [now right | exact Ic].
    + exists x, w. split; [now left | exact I].
Qed.

(** ** Traces of the parts *)

Lemma Quiet_ret {A : Type} (a : A) : Quiet (ret a).
Proof. intros w. constructor. Qed.

Lemma Quiet_raise {A : Type} (e : Exn) : Quiet (raise (A:=A) e).
Proof. intros w. constructor. Qed.

Lemma Quiet_lift {A : Type} (r : Result A) :
  Quiet (lift r).
Proof. destruct r; [apply Quiet_ret | apply Quiet_raise]. Qed.

Lemma Quiet_emit (c : Call) : quiet c = true -> Quiet (emit c).
Proof. intros Q w. simpl. now repeat constructor. Qed.

Lemma Quiet_call_ext {A : Type} (c : Call) (f : Store -> Store * Result A) :
  quiet c = true -> Quiet (call_ext c f).
Proof. intros Q w. simpl. now repeat constructor. Qed.

Lemma Quiet_bind {A B : Type} (m : M A) (f : A -> M B) :
  Quiet m -> (forall a, Quiet (f a)) -> Quiet (bind m f).
Proof.
  intros Qm Qf w. rewrite bind_trace. apply Forall_app. split; [apply Qm|].
  destruct (out_res (m w)); [apply Qf | constructor].
Qed.

Lemma Quiet_store_change (a : Addon) (action : ChangeAction) :
  Quiet (store_change a action).
Proof. intros w. simpl. now repeat constructor. Qed.

Lemma Quiet_model_delete (a : Addon) : Quiet (model_delete a).
Proof.
  intros w. unfold model_delete. destruct (addon_pk a); simpl;
    now repeat constructor.
Qed.

Lemma Quiet_log_debug (target : PyVal) (fmt : string) (args : list string) :
  Quiet (log_debug target fmt args).
Proof.
  destruct target; simpl;
    first [apply Quiet_raise | now apply Quiet_emit].
Qed.

Create HintDb quiet.

#[local] Hint Resolve Quiet_ret Quiet_raise Quiet_lift Quiet_emit
  Quiet_call_ext Quiet_bind Quiet_store_change Quiet_model_delete
  Quiet_log_debug : quiet.

Lemma Quiet_Addon_delete (a : Addon) : Quiet (Addon_delete a).
Proof.
  unfold Addon_delete.
  apply Quiet_bind; [auto with quiet | intros _].
  apply Quiet_bind; [auto with quiet | intros obj].
  apply Quiet_bind.
  - destruct (alert_of (obj_class obj)); auto with quiet.
  - intros _. auto with quiet.
Qed.

Lemma Quiet_disable (a : Addon) : Quiet (disable a).
Proof.
  unfold disable. apply Quiet_bind; [auto with quiet | intros _].
  apply Quiet_Addon_delete.
Qed.

Lemma Quiet_handle_addon_error (a : Addon) (c : Component) :
  Quiet (handle_addon_error a c).
Proof.
  unfold handle_addon_error.
  apply Quiet_bind; [auto with quiet | intros _].
  apply Quiet_bind; [auto with quiet | intros obj].
  apply Quiet_bind; [auto with quiet | intros ok].
  destruct (negb ok); [apply Quiet_disable | apply Quiet_ret].
Qed.





Lemma In_quiet_not_invoke (t : list Call) (a : Addon) (m : string) (args : Args) :
  Forall (fun c => quiet c = true) t -> ~ In (Invoke a m args) t.
Proof.
  intros Q I. rewrite Forall_forall in Q. specialize (Q _ I). discriminate.
Qed.

(** *** The [with] block and the [try] statement *)

Lemma with_trace {A : Type} (enter leave : Call) (body : M A) (w : Store) :
  out_trace (with_ enter leave body w)
  = enter :: out_trace (body (out_store (emit enter w))) ++ [leave].
Proof. reflexivity. Qed.

Lemma with_res {A : Type} (enter leave : Call) (body : M A) (w : Store) :
  out_res (with_ enter leave body w)
  = out_res (body (out_store (emit enter w))).
Proof. reflexivity. Qed.

Lemma try_except_else_ok (body on_exception orelse : M unit) (w : Store) (v : unit) :
  out_res (body w) = Ok v ->
  try_except_else body on_exception orelse w
  = prepend (out_trace (body w)) (orelse (out_store (body w))).
Proof. intros E. unfold try_except_else. now rewrite E. Qed.


Lemma try_except_else_exception
    (body on_exception orelse : M unit) (w : Store) (e : Exn) :
  out_res (body w) = Raise e -> is_database_error e = false ->
  try_except_else body on_exception orelse w
  = prepend (out_trace (body w)) (on_exception (out_store (body w))).
Proof. intros E D. unfold try_except_else. now rewrite E, D. Qed.

(** What follows the [try] block in the trace is quiet when both the
    exception handler and the [else] branch are. *)
Lemma try_except_else_trace (body on_exception orelse : M unit) (w : Store) :
  Quiet on_exception -> Quiet orelse ->
  exists tail,
    out_trace (try_except_else body on_exception orelse w)
    = out_trace (body w) ++ tail
    /\ Forall (fun c => quiet c = true) tail.
Proof.
  intros Qh Qe. unfold try_except_else.
  destruct (out_res (body w)) as [v|e].
  - eexists. split; [reflexivity | apply Qe].
  - destruct (is_database_error e).
    + exists []. split; [now rewrite app_nil_r | constructor].
    + eexists. split; [reflexivity | apply Qh].
Qed.

(** *** Logging *)

Lemma log_debug_loggable (target : PyVal) (fmt : string) (args : list string) :
  loggable target = true ->
  log_debug target fmt args = emit (LogDebug target fmt args).
Proof. destruct target; simpl; congruence. Qed.

Lemma log_debug_not_loggable (target : PyVal) (fmt : string) (args : list string) :
  loggable target = false ->
  log_debug target fmt args = raise (AttributeError "log_debug").
Proof. destruct target; simpl; congruence. Qed.

(** *** The handler call *)

Lemma event_call_trace (s : string) (kw : Kwargs) (a : Addon) (w : Store) :
  out_trace (event_call s kw a w)
  = if has_handler s a then [Invoke a s (KwArgs kw)] else [].
Proof.
  unfold event_call, has_handler. destruct (addon a) as [obj|e]; simpl.
  - unfold bind. simpl. now destruct (cls_getattr (obj_class obj) s).
  - reflexivity.
Qed.

Lemma post_update_call_trace (c : Component) (previous_head : string)
    (skip_push : bool) (a : Addon) (w : Store) :
  out_trace (post_update_call c previous_head skip_push a w)
  = if has_handler "post_update" a
    then [Invoke a "post_update"
                 (PosArgs [VComponent c; VStr previous_head; VBool skip_push])]
    else [].
Proof.
  unfold post_update_call, has_handler. destruct (addon a) as [obj|e]; simpl.
  - unfold bind. simpl. now destruct (cls_getattr (obj_class obj) "post_update").
  - reflexivity.
Qed.

(** *** One turn of a dispatch loop *)



Lemma Turn_In_Invoke (a : Addon) (m : string) (args : Args) (runs : bool)
    (o : Out HostState unit) (a' : Addon) (m' : string) (args' : Args) :
  Turn a m args runs o ->
  In (Invoke a' m' args') (out_trace o) ->
  a' = a /\ m' = m /\ args' = args /\ runs = true.
Proof.
  intros [o' Q N | o' pre op d tail E Qp Qt] I.
  - now destruct (In_quiet_not_invoke _ _ _ Q I).
  - rewrite E in I. apply in_app_or in I. destruct I as [I|I].
    + now destruct (In_quiet_not_invoke _ _ _ Qp I).
    + simpl in I. destruct I as [I|I]; [discriminate|].
      apply in_app_or in I. destruct I as [I|I].
      * destruct runs; [|contradiction].
        destruct I as [I|[]]. injection I as <- <- <-. now repeat split.
      * simpl in I. destruct I as [I|I]; [discriminate|].
        now destruct (In_quiet_not_invoke _ _ _ Qt I).
Qed.


Lemma post_update_step_Turn (c : Component) (previous_head : string)
    (child skip_push : bool) (a : Addon) (w : Store) :
  Turn a "post_update"
       (PosArgs [VComponent c; VStr previous_head; VBool skip_push])
       (negb (child && repo_scope a) && has_handler "post_update" a)
       (post_update_step c previous_head child skip_push a w).
Proof.
  unfold post_update_step. destruct (child && repo_scope a); simpl.
  - apply turn_quiet; simpl; [constructor | discriminate].
  - match goal with
    | |- Turn _ _ _ _ (bind (emit ?c0) (fun _ => try_except_else ?b ?h ?e) w) =>
        rewrite (bind_ok (emit c0) (fun _ => try_except_else b h e) w
                         (a := tt) eq_refl);
        destruct (try_except_else_trace b (out_store (emit c0 w))
                    (Quiet_handle_addon_error a c)
                    (Quiet_emit (LogDebug (VComponent c)
                                   "completed post_update add-on: %s" [name a])
                                eq_refl))
          as [tail [E Q]]
    end.
    eapply turn_span with (pre := [_]) (tail := tail).
    + rewrite prepend_trace, E. unfold post_update_attempt.
      rewrite with_trace, post_update_call_trace. simpl.
      rewrite <- app_assoc. reflexivity.
    + now repeat constructor.
    + exact Q.
Qed.

(** *** Whole loops *)



(** ** Dispatch by name (C3) and in order (C5) *)



(** ** Error handling (C1, C8) *)

(** Both dispatches are loops over the add-ons registered for the event. *)
Lemma loop_run_for_each (l : Loop) (c : Component) (w : Store) :
  loop_ok l ->
  loop_run l c w = for_each (loop_addons l c) (loop_step l c) w.
Proof.
  destruct l as [e s kw | p child skip]; simpl; intros Ok; [|reflexivity].
  unfold handle_addon_event. now rewrite Ok.
Qed.

Lemma loop_step_enters (l : Loop) (c : Component) (a : Addon) (w : Store) :
  loop_enters l a = true ->
  loop_step l c a w
  = prepend [loop_running l c a]
      (try_except_else (loop_attempt l c a) (handle_addon_error a c)
                       (emit (loop_completed l c a)) (loop_start l c a w)).
Proof.
  destruct l as [e s kw | p child skip]; simpl; intros E.
  - unfold event_step. rewrite !(log_debug_loggable _ _ _ E). reflexivity.
  - unfold post_update_step. apply negb_true_iff in E. rewrite E. reflexivity.
Qed.


(** A turn whose [try] block raises anything else goes on in
    [handle_addon_error]. *)
Lemma loop_step_exception (l : Loop) (c : Component) (a : Addon)
    (w : Store) (ex : Exn) :
  loop_enters l a = true ->
  out_res (loop_attempt l c a (loop_start l c a w)) = Raise ex ->
  is_database_error ex = false ->
  loop_step l c a w
  = prepend (loop_running l c a :: out_trace (loop_attempt l c a (loop_start l c a w)))
      (handle_addon_error a c
         (out_store (loop_attempt l c a (loop_start l c a w)))).
Proof.
  intros En R D. rewrite (loop_step_enters l c a w En).
  rewrite (try_except_else_exception _ _ _ _ R D).
  now rewrite prepend_prepend.
Qed.

Lemma handle_addon_error_reports (a : Addon) (c : Component) (w : Store) :
  exists t, out_trace (handle_addon_error a c w) = report a c :: t.
Proof.
  unfold handle_addon_error. rewrite bind_trace. simpl. eauto.
Qed.


Lemma bind_emit {B : Type} (c : Call) (f : unit -> M B) (w : Store) :
  bind (emit c) f w = prepend [c] (f tt (out_store (emit c w))).
Proof. reflexivity. Qed.

Lemma bind_store_change {B : Type} (a : Addon) (action : ChangeAction)
    (f : unit -> M B) (w : Store) :
  bind (store_change a action) f w
  = prepend (out_trace (store_change a action w))
            (f tt (out_store (store_change a action w))).
Proof. reflexivity. Qed.

Lemma bind_lift_ok {A B : Type} (x : A) (f : A -> M B) (w : Store) :
  bind (lift (Ok x)) f w = f x w.
Proof. unfold bind. simpl. apply prepend_nil. Qed.

Lemma bind_lift_raise {A B : Type} (e : Exn) (f : A -> M B) (w : Store) :
  bind (lift (Raise e)) f w = mkOut [] w (Raise e).
Proof. reflexivity. Qed.

Lemma bind_ret {A B : Type} (x : A) (f : A -> M B) (w : Store) :
  bind (ret x) f w = f x w.
Proof. unfold bind. simpl. apply prepend_nil. Qed.

Lemma bind_model_delete {B : Type} (a : Addon) (k : nat)
    (f : unit -> M B) (w : Store) :
  addon_pk a = Some k ->
  bind (model_delete a) f w
  = prepend [ModelDelete a] (f tt (out_store (model_delete a w))).
Proof. intros E. unfold bind, model_delete. rewrite E. reflexivity. Qed.




(** ** The registry (C6) *)

(** C6.  The class of an installation is the registry entry for its stored
    name (a [KeyError] when the registry has none); the live add-on object
    is that class applied to the installation record; and two installations
    with the same name resolve to the same class. *)
Theorem addon_class_from_registry :
  (forall a : Addon,
      addon_class a = match ADDONS (name a) with
                      | Some cls => Ok cls
                      | None => Raise (KeyError (name a))
                      end)
  /\ (forall (a : Addon) (cls : AddonClass HostState),
         ADDONS (name a) = Some cls ->
         addon_class a = Ok cls
         /\ addon a = Ok (mkAddonObject cls a)
         /\ (forall obj, addon a = Ok obj ->
                obj_class obj = cls /\ instance obj = a))
  /\ (forall a : Addon,
         ADDONS (name a) = None ->
         addon_class a = Raise (KeyError (name a))
         /\ addon a = Raise (KeyError (name a)))
  /\ (forall a b : Addon, name a = name b -> addon_class a = addon_class b).
Proof.
  split; [reflexivity|]. split; [|split].
  - intros a cls E. unfold addon, addon_class. rewrite E.
    split; [reflexivity|]. split; [reflexivity|].
    intros obj Eo. injection Eo as <-. now split.
  - intros a E. unfold addon, addon_class. rewrite E. now split.
  - intros a b E. unfold addon_class. now rewrite E.
Qed.

(** ** The receivers (C4) *)


(** ** Saving an installation (C7) *)

Lemma save_prepare_scopes (cls : AddonClass HostState) (self : Addon) :
  project_scope (save_prepare cls self) = cls_project_scope cls
  /\ repo_scope (save_prepare cls self) = cls_repo_scope cls.
Proof.
  unfold save_prepare, reallocate, set_scopes. simpl.
  destruct (cls_repo_scope cls); [|now split].
  destruct (linked_component (component self)); now split.
Qed.

Lemma save_prepare_component (cls : AddonClass HostState) (self : Addon) :
  component (save_prepare cls self)
  = if cls_repo_scope cls
    then match linked_component (component self) with
         | Some l => l
         | None => component self
         end
    else component self.
Proof.
  unfold save_prepare, reallocate, set_scopes. simpl.
  destruct (cls_repo_scope cls); [|reflexivity].
  now destruct (linked_component (component self)).
Qed.

(** [save] in one piece, for an installation whose class is registered. *)
Lemma save_outcome (self : Addon) (force_insert force_update : bool)
    (update_fields : option (list string)) (w : Store)
    (cls : AddonClass HostState) :
  ADDONS (name self) = Some cls ->
  let self' := save_prepare cls self in
  let history :=
    if not_state_only update_fields
    then store_change self'
           (if pk_or (addon_pk self') force_insert
            then ACTION_ADDON_CREATE else ACTION_ADDON_CHANGE)
    else ret tt in
  let w1 := out_store (history (out_store (emit (DropAddonsCache (component self')) w))) in
  let written := model_save self' force_insert force_update update_fields w1 in
  save self force_insert force_update update_fields w
  = mkOut (DropAddonsCache (component self')
           :: out_trace (history (out_store (emit (DropAddonsCache (component self')) w)))
           ++ [ModelSave self' force_insert force_update update_fields])
          (fst written)
          (match snd written with
           | Ok k => Ok (set_pk self' k)
           | Raise e => Raise e
           end).
Proof.
  intros E self' history w1 written.
  unfold save, addon_class. rewrite E, bind_lift_ok. fold self'.
  rewrite bind_emit. fold history.
  assert (Hh : out_res (history (out_store (emit (DropAddonsCache (component self')) w)))
               = Ok tt).
  { unfold history. now destruct (not_state_only update_fields). }
  rewrite (bind_ok history _ _ Hh). fold w1.
  unfold bind, call_ext, prepend. cbn [out_res out_trace out_store]. fold written.
  destruct (snd written); cbn [out_res out_trace out_store ret];
    rewrite ?app_nil_r; reflexivity.
Qed.

(** C7, as amended.  Every save of an installation whose class is
    registered re-derives the two scope flags: the record that is handed to
    the database has the flags of the class, whatever the record held, and,
    when the class is repository-wide and the owning component has a linked
    component, it is attached to that linked component; the history entry
    and the one database write come after, and the installation as [save]
    leaves it has these flags and this component.  Provided links do not
    chain (the component the owning component links to is not itself a
    link), a repository-wide add-on is, after the save, not attached to a
    component that links to another repository. *)
Theorem save_rederives_scope :
  forall (self : Addon) (force_insert force_update : bool)
         (update_fields : option (list string)) (w : Store)
         (cls : AddonClass HostState),
    ADDONS (name self) = Some cls ->
    let self' := save_prepare cls self in
    let o := save self force_insert force_update update_fields w in
    project_scope self' = cls_project_scope cls
    /\ repo_scope self' = cls_repo_scope cls
    /\ component self'
       = (if cls_repo_scope cls
          then match linked_component (component self) with
               | Some l => l
               | None => component self
               end
          else component self)
    /\ (exists before,
          out_trace o
          = before ++ [ModelSave self' force_insert force_update update_fields]
          /\ forall x fi fu uf, ~ In (ModelSave x fi fu uf) before)
    /\ (forall saved, out_res o = Ok saved ->
          project_scope saved = cls_project_scope cls
          /\ repo_scope saved = cls_repo_scope cls
          /\ component saved = component self')
    /\ (link_is_repository (component self) ->
        forall saved, out_res o = Ok saved ->
          repo_scope saved = true ->
          linked_component (component saved) = None).
Proof.
  intros self fi fu uf w cls E self' o.
  destruct (save_prepare_scopes cls self) as [Ps Rs].
  pose proof (save_prepare_component cls self) as Cs.
  fold self' in Ps, Rs, Cs.
  pose proof (save_outcome self fi fu uf w E) as O. cbv zeta in O.
  fold self' in O. fold o in O.
  assert (Saved : forall saved, out_res o = Ok saved ->
            project_scope saved = cls_project_scope cls
            /\ repo_scope saved = cls_repo_scope cls
            /\ component saved = component self').
  { intros saved Eo. rewrite O in Eo. cbn [out_res] in Eo.
    match type of Eo with
    | match ?r with _ => _ end = _ => destruct r as [k|e]; [|discriminate]
    end.
    injection Eo as <-. unfold set_pk. cbn. now repeat split. }
  repeat split; try assumption.
  - rewrite O. cbn [out_trace]. eexists. split.
    + rewrite app_comm_cons. reflexivity.
    + intros x fi' fu' uf' [I|I]; [discriminate|].
      destruct (not_state_only uf); simpl in I; [|contradiction].
      destruct I as [I|[]]. discriminate.
  - apply Saved. assumption.
  - apply Saved. assumption.
  - apply Saved. assumption.
  - intros L saved Eo Rt.
    destruct (Saved saved Eo) as [_ [Rv Cv]].
    rewrite Cv, Cs. rewrite Rv in Rt. rewrite Rt.
    destruct (linked_component (component self)) as [l|] eqn:El.
    + now apply L.
    + exact El.
Qed.

(** ** Event subscriptions (C9) *)















(** * Further properties of the module *)

(** ** Scope resolution and saving *)

Lemma same_component_refl (c : Component) : same_component c c = true.
Proof. unfold same_component. apply Nat.eqb_refl. Qed.

Lemma same_project_refl (p : Project) : same_project p p = true.
Proof. unfold same_project. apply Nat.eqb_refl. Qed.

Lemma own_component_q (a : Addon) : filter_component_q (component a) a = true.
Proof.
  unfold filter_component_q.
  rewrite same_component_refl, same_project_refl.
  now destruct (project_scope a).
Qed.

(** X1.  Whatever its flags, an installation applies to the component it is
    attached to: the direct rule takes it when it is not project-wide, the
    project rule when it is.  So the add-ons resolved for a component
    include every installation of the table attached to it. *)
Theorem installation_applies_to_own_component :
  forall (tbl : list Addon) (c : Component) (a : Addon),
    In a tbl ->
    component_pk (component a) = component_pk c ->
    project_pk (project (component a)) = project_pk (project c) ->
    In a (filter_component tbl c).
Proof.
  intros tbl c a I Pc Pp. apply filter_In. split; [exact I|].
  unfold filter_component_q.
  apply same_component_eq in Pc. apply same_project_eq in Pp.
  rewrite Pc, Pp. now destruct (project_scope a).
Qed.

Lemma filter_component_q_set_pk (c : Component) (a : Addon) (k : nat) :
  filter_component_q c (set_pk a k) = filter_component_q c a.
Proof. reflexivity. Qed.

Lemma save_prepare_applies (cls : AddonClass HostState) (self : Addon) :
  filter_component_q (component self) (save_prepare cls self) = true.
Proof.
  unfold filter_component_q.
  destruct (save_prepare_scopes cls self) as [Ps Rs].
  rewrite (save_prepare_component cls self), Ps, Rs.
  destruct (cls_repo_scope cls).
  - destruct (linked_component (component self)) as [l|].
    + rewrite same_component_refl. simpl. now rewrite !orb_true_r.
    + rewrite same_component_refl, same_project_refl.
      now destruct (cls_project_scope cls).
  - rewrite same_component_refl, same_project_refl.
    now destruct (cls_project_scope cls).
Qed.

Lemma save_result (self : Addon) (fi fu : bool) (uf : option (list string))
    (w : Store) (saved : Addon) :
  out_res (save self fi fu uf w) = Ok saved ->
  exists cls k,
    ADDONS (name self) = Some cls /\ saved = set_pk (save_prepare cls self) k.
Proof.
  intros E. destruct (ADDONS (name self)) as [cls|] eqn:Ec.
  - pose proof (save_outcome self fi fu uf w Ec) as O. cbv zeta in O.
    rewrite O in E. cbn [out_res] in E.
    match type of E with
    | match ?r with _ => _ end = _ => destruct r as [k|e]; [|discriminate]
    end.
    injection E as <-. now exists cls, k.
  - unfold save, addon_class in E. rewrite Ec in E. discriminate.
Qed.

(** X2.  Reallocation never takes an add-on away from where it was
    installed: after a save that returns, the installation applies both to
    the component it was saved on and to the component it is now attached
    to. *)
Theorem saved_installation_still_applies :
  forall (self : Addon) (force_insert force_update : bool)
         (update_fields : option (list string)) (w : Store) (saved : Addon),
    out_res (save self force_insert force_update update_fields w) = Ok saved ->
    filter_component_q (component self) saved = true
    /\ filter_component_q (component saved) saved = true
    /\ name saved = name self.
Proof.
  intros self fi fu uf w saved E.
  destruct (save_result self fi fu uf w E) as [cls [k [Ec ->]]].
  split; [|split].
  - rewrite filter_component_q_set_pk. apply save_prepare_applies.
  - apply own_component_q.
  - unfold set_pk, save_prepare, reallocate, set_scopes. simpl.
    destruct (cls_repo_scope cls); [|reflexivity].
    now destruct (linked_component (component self)).
Qed.

Lemma reallocate_idem (self : Addon) :
  link_is_repository (component self) ->
  reallocate (reallocate self) = reallocate self.
Proof.
  intros L. unfold reallocate.
  destruct (repo_scope self) eqn:R; [|now rewrite R].
  destruct (linked_component (component self)) as [l|] eqn:El.
  - simpl. rewrite R, (L l El). reflexivity.
  - now rewrite R, El.
Qed.

Lemma set_scopes_same (a : Addon) :
  set_scopes a (project_scope a) (repo_scope a) = a.
Proof. now destruct a. Qed.

Lemma save_prepare_idem (cls : AddonClass HostState) (self : Addon) :
  link_is_repository (component self) ->
  save_prepare cls (save_prepare cls self) = save_prepare cls self.
Proof.
  intros L. destruct (save_prepare_scopes cls self) as [Ps Rs].
  unfold save_prepare at 1. rewrite <- Ps, <- Rs, set_scopes_same.
  unfold save_prepare. now apply reallocate_idem.
Qed.

Lemma save_prepare_set_pk (cls : AddonClass HostState) (a : Addon) (k : nat) :
  save_prepare cls (set_pk a k) = set_pk (save_prepare cls a) k.
Proof.
  unfold save_prepare, reallocate, set_scopes, set_pk, set_component. simpl.
  destruct (cls_repo_scope cls); [|reflexivity].
  now destruct (linked_component (component a)).
Qed.

(** X3.  Provided links do not chain, saving is stable: a record that a save
    has returned is handed to the database unchanged by the next save (same
    flags, same component), so repeated saves never move an add-on
    further. *)
Theorem save_again_changes_nothing :
  forall (self : Addon) (force_insert force_update : bool)
         (update_fields : option (list string)) (w : Store)
         (saved : Addon) (cls : AddonClass HostState),
    link_is_repository (component self) ->
    ADDONS (name self) = Some cls ->
    out_res (save self force_insert force_update update_fields w) = Ok saved ->
    save_prepare cls saved = saved
    /\ forall fi fu uf w',
         exists before,
           out_trace (save saved fi fu uf w') = before ++ [ModelSave saved fi fu uf].
Proof.
  intros self fi fu uf w saved cls L Ec E.
  destruct (save_result self fi fu uf w E) as [cls' [k [Ec' ->]]].
  rewrite Ec in Ec'. injection Ec' as <-.
  assert (Same : save_prepare cls (set_pk (save_prepare cls self) k)
                 = set_pk (save_prepare cls self) k).
  { rewrite save_prepare_set_pk. f_equal. now apply save_prepare_idem. }
  split; [exact Same|]. intros fi' fu' uf' w'.
  assert (Nm : name (set_pk (save_prepare cls self) k) = name self).
  { unfold set_pk, save_prepare, reallocate, set_scopes. simpl.
    destruct (cls_repo_scope cls); [|reflexivity].
    now destruct (linked_component (component self)). }
  assert (Ec2 : ADDONS (name (set_pk (save_prepare cls self) k)) = Some cls)
    by now rewrite Nm.
  pose proof (save_outcome _ fi' fu' uf' w' Ec2) as O. cbv zeta in O.
  rewrite O. cbn [out_trace]. rewrite Same.
  eexists. rewrite app_comm_cons. reflexivity.
Qed.

(** X4.  Before the database write, [save] drops the add-on cache of the
    component the record is now attached to and writes at most one history
    entry: none exactly when [update_fields] is [["state"]]; otherwise one,
    for the new component, whose action is [ACTION_ADDON_CREATE] when the
    record has a non-zero primary key or [force_insert] is set and
    [ACTION_ADDON_CHANGE] otherwise.  The add-on and subscription tables
    reach the database write untouched. *)
Theorem save_history_entry :
  forall (self : Addon) (force_insert force_update : bool)
         (update_fields : option (list string)) (w : Store)
         (cls : AddonClass HostState),
    ADDONS (name self) = Some cls ->
    let self' := save_prepare cls self in
    let entry :=
      mkChange (if pk_or (addon_pk self) force_insert
                then ACTION_ADDON_CREATE else ACTION_ADDON_CHANGE)
               (acting_user (component self')) (component self')
               (name self) (configuration self) in
    let history := if not_state_only update_fields then [entry] else [] in
    exists w1,
      out_store (save self force_insert force_update update_fields w)
      = fst (model_save self' force_insert force_update update_fields w1)
      /\ out_trace (save self force_insert force_update update_fields w)
         = DropAddonsCache (component self') :: map ChangeCreate history
           ++ [ModelSave self' force_insert force_update update_fields]
      /\ change_table w1 = change_table w ++ history
      /\ addon_table w1 = addon_table w
      /\ event_table w1 = event_table w
      /\ host w1 = host_effect (DropAddonsCache (component self')) (host w).
Proof.
  intros self fi fu uf w cls Ec self' entry history.
  pose proof (save_outcome self fi fu uf w Ec) as O. cbv zeta in O.
  fold self' in O. rewrite O. cbn [out_store out_trace].
  assert (Pk : addon_pk self' = addon_pk self).
  { unfold self', save_prepare, reallocate, set_scopes. simpl.
    destruct (cls_repo_scope cls); [|reflexivity].
    now destruct (linked_component (component self)). }
  assert (Nm : name self' = name self /\ configuration self' = configuration self).
  { unfold self', save_prepare, reallocate, set_scopes. simpl.
    destruct (cls_repo_scope cls); [|now split].
    now destruct (linked_component (component self)). }
  destruct Nm as [Nm Cf].
  eexists. split; [reflexivity|].
  unfold history, entry. rewrite Pk.
  destruct (not_state_only uf); cbn; rewrite ?Nm, ?Cf, ?app_nil_r;
    repeat split; reflexivity.
Qed.

(** ** Deleting an installation *)


Lemma Addon_delete_outcome (a : Addon) (w : Store)
    (obj : AddonObject HostState) (k : nat) :
  addon a = Ok obj ->
  addon_pk a = Some k ->
  Addon_delete a w
  = mkOut (delete_calls (obj_class obj) a)
          (fst (cls_post_uninstall (obj_class obj) a
                  (deleted_store (obj_class obj) a k w)))
          (snd (cls_post_uninstall (obj_class obj) a
                  (deleted_store (obj_class obj) a k w))).
Proof.
  intros Ea Ek. unfold Addon_delete, delete_calls, deleted_store.
  rewrite bind_store_change, Ea, bind_lift_ok.
  destruct (alert_of (obj_class obj)) as [alert|].
  - rewrite bind_emit, (bind_model_delete _ _ _ Ek).
    unfold model_delete. rewrite Ek. reflexivity.
  - rewrite bind_ret, (bind_model_delete _ _ _ Ek).
    unfold model_delete. rewrite Ek. reflexivity.
Qed.


Lemma bind_model_delete_unsaved {B : Type} (a : Addon)
    (f : unit -> M B) (w : Store) :
  addon_pk a = None ->
  bind (model_delete a) f w = mkOut [] w (Raise (ValueError "pk is None")).
Proof. intros E. unfold bind, model_delete. rewrite E. reflexivity. Qed.

(** X6.  [Addon.delete] writes the removal to the history before anything
    can fail.  When the class of the installation is not in the registry,
    or the record has no primary key, the delete raises ([KeyError] in the
    first case, [ValueError] otherwise) with the add-on and subscription
    tables as they were, [post_uninstall] not run, and the removal entry
    already in the history. *)
Theorem delete_failure_leaves_history_entry :
  forall (a : Addon) (w : Store),
    ADDONS (name a) = None \/ addon_pk a = None ->
    let o := Addon_delete a w in
    out_res o = Raise (match ADDONS (name a) with
                       | None => KeyError (name a)
                       | Some _ => ValueError "pk is None"
                       end)
    /\ addon_table (out_store o) = addon_table w
    /\ event_table (out_store o) = event_table w
    /\ change_table (out_store o) = change_table w ++ [removal a]
    /\ ~ In (ModelDelete a) (out_trace o)
    /\ ~ In (PostUninstall a) (out_trace o).
Proof.
  intros a w Hyp o. unfold o, Addon_delete.
  rewrite bind_store_change. unfold addon, addon_class.
  destruct (ADDONS (name a)) as [cls|] eqn:Ec.
  - destruct Hyp as [Hyp|Ek]; [discriminate|].
    rewrite bind_lift_ok.
    destruct (alert_of (mkAddonObject cls a).(obj_class)) as [alert|].
    + rewrite bind_emit, (bind_model_delete_unsaved _ _ _ Ek).
      cbn. repeat split; try reflexivity;
        intros I; cbn in I; intuition discriminate.
    + rewrite bind_ret, (bind_model_delete_unsaved _ _ _ Ek).
      cbn. repeat split; try reflexivity;
        intros I; cbn in I; intuition discriminate.
  - rewrite bind_lift_raise. cbn. repeat split; try reflexivity;
      intros I; cbn in I; intuition discriminate.
Qed.

(** ** Dispatch: where exceptions are not contained *)

(** A dispatch that has come to [a] after the turns of [pre]. *)
Lemma loop_run_at (l : Loop) (c : Component) (pre : list Addon) (a : Addon)
    (rest : list Addon) (w0 : Store) :
  loop_ok l ->
  loop_addons l c = pre ++ a :: rest ->
  out_res (for_each pre (loop_step l c) w0) = Ok tt ->
  loop_run l c w0
  = prepend (out_trace (for_each pre (loop_step l c) w0))
      (for_each (a :: rest) (loop_step l c)
                (out_store (for_each pre (loop_step l c) w0))).
Proof.
  intros Lok La B. rewrite (loop_run_for_each l c w0 Lok), La.
  apply (for_each_app pre (a :: rest) (loop_step l c) w0 B).
Qed.

Lemma for_each_raise {A : Type} (x : A) (l : list A) (body : A -> M unit)
    (w : Store) (e : Exn) :
  out_res (body x w) = Raise e ->
  for_each (x :: l) body w
  = mkOut (out_trace (body x w)) (out_store (body x w)) (Raise e).
Proof. intros E. rewrite for_each_cons. now rewrite E. Qed.

Lemma loop_attempt_unregistered (l : Loop) (c : Component) (a : Addon)
    (w : Store) (e : Exn) :
  addon a = Raise e ->
  out_trace (loop_attempt l c a w) = [loop_span l a; SpanFinish]
  /\ out_res (loop_attempt l c a w) = Raise e.
Proof.
  intros Ea. destruct l as [ev s kw | p child skip];
    cbn [loop_attempt loop_span];
    unfold event_attempt, event_call, post_update_attempt, post_update_call;
    rewrite with_trace, with_res, Ea, bind_lift_raise; now split.
Qed.

Lemma handle_addon_error_unregistered (a : Addon) (c : Component)
    (w : Store) (e : Exn) :
  addon a = Raise e ->
  handle_addon_error a c w
  = mkOut [report a c] (out_store (emit (report a c) w)) (Raise e).
Proof.
  intros Ea. unfold handle_addon_error. fold (report a c).
  rewrite bind_emit, Ea, bind_lift_raise. reflexivity.
Qed.

(** X7.  An installation whose name is not in the registry breaks every
    dispatch that comes to it.  The lookup fails inside the [try] block and
    is caught, but [handle_addon_error] looks the class up again to ask
    [can_install], outside any [try]: the dispatch raises [KeyError] to its
    caller right after the report, and the add-ons after it get no turn. *)
Theorem unregistered_addon_stops_dispatch :
  forall (l : Loop) (c : Component) (pre : list Addon) (a : Addon)
         (rest : list Addon) (w0 : Store),
    loop_ok l ->
    loop_addons l c = pre ++ a :: rest ->
    out_res (for_each pre (loop_step l c) w0) = Ok tt ->
    loop_enters l a = true ->
    ADDONS (name a) = None ->
    out_res (loop_run l c w0) = Raise (KeyError (name a))
    /\ out_trace (loop_run l c w0)
       = out_trace (for_each pre (loop_step l c) w0)
         ++ [loop_running l c a; loop_span l a; SpanFinish; report a c].
Proof.
  intros l c pre a rest w0 Lok La B En Ec.
  assert (Ea : addon a = Raise (KeyError (name a))).
  { unfold addon, addon_class. now rewrite Ec. }
  rewrite (loop_run_at l c pre a rest w0 Lok La B).
  set (w := out_store (for_each pre (loop_step l c) w0)).
  destruct (loop_attempt_unregistered l c a (loop_start l c a w) Ea) as [Tr Re].
  pose proof (loop_step_exception l c a w En Re eq_refl) as S.
  rewrite (handle_addon_error_unregistered a c _ Ea), Tr in S.
  assert (R : out_res (loop_step l c a w) = Raise (KeyError (name a)))
    by now rewrite S.
  rewrite (for_each_raise a rest (loop_step l c) w R), S.
  split; reflexivity.
Qed.

(** X8.  More generally, whatever [handle_addon_error] raises reaches the
    caller of the dispatch: when the [try] block of a turn raises an
    exception that is not a database error and the error handling raises in
    turn (the registry lookup, [can_install], the deletion or
    [post_uninstall]), the dispatch ends there with that second exception,
    in the store the error handling left. *)
Theorem error_handler_failure_reaches_caller :
  forall (l : Loop) (c : Component) (pre : list Addon) (a : Addon)
         (rest : list Addon) (w0 : Store) (ex ex' : Exn),
    loop_ok l ->
    loop_addons l c = pre ++ a :: rest ->
    let before := for_each pre (loop_step l c) w0 in
    out_res before = Ok tt ->
    loop_enters l a = true ->
    let o1 := loop_attempt l c a (loop_start l c a (out_store before)) in
    out_res o1 = Raise ex ->
    is_database_error ex = false ->
    let o2 := handle_addon_error a c (out_store o1) in
    out_res o2 = Raise ex' ->
    loop_run l c w0
    = mkOut (out_trace before ++ loop_running l c a :: out_trace o1 ++ out_trace o2)
            (out_store o2) (Raise ex').
Proof.
  intros l c pre a rest w0 ex ex' Lok La before B En o1 R D o2 K.
  rewrite (loop_run_at l c pre a rest w0 Lok La B). fold before.
  pose proof (loop_step_exception l c a (out_store before) En R D) as S.
  fold o1 in S. fold o2 in S.
  assert (Rs : out_res (loop_step l c a (out_store before)) = Raise ex')
    by (rewrite S; exact K).
  rewrite (for_each_raise a rest (loop_step l c) (out_store before) Rs), S.
  unfold prepend. cbn [out_trace out_store]. now rewrite <- app_comm_cons.
Qed.

(** X9.  The edges of [handle_addon_event].  An event type without an entry
    in [EVENT_STRING] raises [KeyError] before anything is done, add-ons or
    not.  With no add-on registered the dispatch returns at once, whatever
    the keyword arguments.  With at least one add-on and no [translation]
    argument that can log, it raises [AttributeError] before the first
    handler is looked up.  In all three cases no call is made and the store
    is as it was; the same holds for [post_update] with no add-on
    registered. *)
Theorem dispatch_edge_cases :
  forall (c : Component) (e : EventType) (kw : Kwargs) (w : Store),
    (EVENT_STRING e = None ->
     handle_addon_event c e kw w = mkOut [] w (Raise (KeyError "EVENT_STRING")))
    /\ (forall s, EVENT_STRING e = Some s -> filter_event c e = [] ->
          handle_addon_event c e kw w = mkOut [] w (Ok tt))
    /\ (forall s a rest,
          EVENT_STRING e = Some s -> filter_event c e = a :: rest ->
          loggable (kwargs_get kw "translation") = false ->
          handle_addon_event c e kw w
          = mkOut [] w (Raise (AttributeError "log_debug")))
    /\ (forall previous_head child skip_push,
          filter_event c EVENT_POST_UPDATE = [] ->
          post_update c previous_head child skip_push w = mkOut [] w (Ok tt)).
Proof.
  intros c e kw w. unfold handle_addon_event, post_update. split; [|split; [|split]].
  - intros E. now rewrite E.
  - intros s E L. now rewrite E, L.
  - intros s a rest E L N. rewrite E, L, for_each_cons.
    unfold event_step. rewrite (log_debug_not_loggable _ _ _ N). reflexivity.
  - intros p child skip L. now rewrite L.
Qed.

(** ** The loop of [post_update] *)

(** X10.  For an update of a child component, [post_update] never calls the
    handler of a repository-wide add-on; and whatever handler it calls, for
    a child or not, is the [post_update] method of an add-on registered for
    the post-update event, called with the component, the previous head and
    [skip_push], in this order. *)
Theorem post_update_skips_repo_scope_for_child :
  forall (c : Component) (previous_head : string) (child skip_push : bool)
         (w : Store) (a : Addon) (m : string) (args : Args),
    In (Invoke a m args)
       (out_trace (post_update c previous_head child skip_push w)) ->
    In a (filter_event c EVENT_POST_UPDATE)
    /\ m = "post_update"
    /\ args = PosArgs [VComponent c; VStr previous_head; VBool skip_push]
    /\ (child = true -> repo_scope a = false).
Proof.
  intros c p child skip w a m args I. unfold post_update in I.
  apply for_each_trace_In in I. destruct I as [x [w' [Ix I]]].
  pose proof (post_update_step_Turn c p child skip x w') as T.
  destruct (Turn_In_Invoke _ _ _ T I) as [-> [-> [-> R]]].
  repeat split; trivial. intros ->.
  apply andb_true_iff in R. destruct R as [R _].
  apply negb_true_iff in R. exact R.
Qed.

(** X11.  In [post_update] the method is reached by plain attribute access:
    an add-on object without a [post_update] method raises inside the [try]
    block, and the turn goes on in [handle_addon_error], which reports the
    add-on as failed (and disables it if [can_install] says no), where
    [handle_addon_event] would have passed it over. *)
Theorem post_update_missing_method_is_an_error :
  forall (c : Component) (previous_head : string) (child skip_push : bool)
         (a : Addon) (obj : AddonObject HostState) (w : Store),
    addon a = Ok obj ->
    cls_getattr (obj_class obj) "post_update" = None ->
    child && repo_scope a = false ->
    let l := PostUpdateLoop previous_head child skip_push in
    let w3 := set_host w (host_effect SpanFinish
                            (host_effect (loop_span l a)
                               (host_effect (loop_running l c a) (host w)))) in
    post_update_step c previous_head child skip_push a w
    = prepend [loop_running l c a; loop_span l a; SpanFinish]
              (handle_addon_error a c w3)
    /\ In (report a c)
          (out_trace (post_update_step c previous_head child skip_push a w)).
Proof.
  intros c p child skip a obj w Ea Em Sk l w3.
  assert (En : loop_enters l a = true) by (simpl; now rewrite Sk).
  assert (St : loop_step l c a w = post_update_step c p child skip a w)
    by reflexivity.
  assert (At : loop_attempt l c a (loop_start l c a w)
               = mkOut [loop_span l a; SpanFinish] w3
                       (Raise (AttributeError "post_update"))).
  { simpl. unfold post_update_attempt, with_, post_update_call.
    rewrite Ea, bind_lift_ok, Em. reflexivity. }
  clearbody w3.
  pose proof (loop_step_exception l c a w En (ex := AttributeError "post_update")) as S.
  rewrite At in S. specialize (S eq_refl eq_refl).
  cbn [out_store out_trace] in S. rewrite St in S.
  split; [exact S|].
  rewrite S, prepend_trace.
  destruct (handle_addon_error_reports a c w3) as [t E]. rewrite E.
  apply in_or_app. right. now left.
Qed.

(** ** Dispatch: when it returns, and what it leaves alone *)

Lemma for_each_all {A : Type} (l : list A) (body : A -> M unit)
    (P : Call -> Prop) :
  (forall x w, In x l ->
     out_res (body x w) = Ok tt /\ Forall P (out_trace (body x w))) ->
  forall w, out_res (for_each l body w) = Ok tt
            /\ Forall P (out_trace (for_each l body w)).
Proof.
  induction l as [|x l IH]; intros Hb w.
  - split; [reflexivity | constructor].
  - destruct (Hb x w (or_introl eq_refl)) as [R F].
    rewrite for_each_cons, R.
    destruct (IH (fun y w' I => Hb y w' (or_intror I)) (out_store (body x w)))
      as [R' F'].
    split; [exact R'|]. rewrite prepend_trace. apply Forall_app. now split.
Qed.

Lemma loop_attempt_no_alarm (l : Loop) (c : Component) (a : Addon) (w : Store) :
  Forall (fun call => alarm call = false) (out_trace (loop_attempt l c a w)).
Proof.
  destruct l as [e s kw | p child skip]; cbn [loop_attempt];
    unfold event_attempt, post_update_attempt; rewrite with_trace;
    rewrite ?event_call_trace, ?post_update_call_trace;
    match goal with
    | |- context [if ?b then _ else _] => destruct b
    end; repeat constructor.
Qed.

Lemma loop_log_lines (l : Loop) (c : Component) (a : Addon) :
  alarm (loop_running l c a) = false /\ alarm (loop_completed l c a) = false.
Proof. destruct l; now split. Qed.

Lemma loop_skips (l : Loop) (c : Component) (a : Addon) (w : Store) :
  loop_logs l = true ->
  loop_enters l a = false ->
  loop_step l c a w = mkOut [] w (Ok tt).
Proof.
  destruct l as [e s kw | p child skip]; simpl; intros Lg En.
  - congruence.
  - unfold post_update_step. apply negb_false_iff in En. now rewrite En.
Qed.

Lemma loop_step_returns (l : Loop) (c : Component) (a : Addon) (w : Store) :
  loop_enters l a = true ->
  out_res (loop_attempt l c a (loop_start l c a w)) = Ok tt ->
  loop_step l c a w
  = mkOut (loop_running l c a
           :: out_trace (loop_attempt l c a (loop_start l c a w))
           ++ [loop_completed l c a])
          (out_store (emit (loop_completed l c a)
                        (out_store (loop_attempt l c a (loop_start l c a w)))))
          (Ok tt).
Proof.
  intros En R. rewrite (loop_step_enters l c a w En).
  rewrite (try_except_else_ok _ _ _ _ R). reflexivity.
Qed.

(** X12.  A dispatch in which every [try] block returns is silent on the
    error path: it returns, and its trace holds no error report, no
    [can_install] question, no warning, no history entry and no deletion;
    what it calls are the log lines, the spans and the handlers. *)
Theorem dispatch_without_failure_is_silent :
  forall (l : Loop) (c : Component) (w0 : Store),
    loop_ok l ->
    loop_logs l = true ->
    (forall a w, In a (loop_addons l c) ->
                 out_res (loop_attempt l c a w) = Ok tt) ->
    out_res (loop_run l c w0) = Ok tt
    /\ Forall (fun call => alarm call = false) (out_trace (loop_run l c w0)).
Proof.
  intros l c w0 Lok Lg Hs. rewrite (loop_run_for_each l c w0 Lok).
  apply for_each_all. intros a w I.
  destruct (loop_enters l a) eqn:En.
  - rewrite (loop_step_returns l c a w En (Hs a _ I)). cbn [out_res out_trace].
    split; [reflexivity|].
    destruct (loop_log_lines l c a) as [Lr Lc].
    constructor; [exact Lr|]. apply Forall_app. split.
    + apply loop_attempt_no_alarm.
    + now repeat constructor.
  - rewrite (loop_skips l c a w Lg En). split; [reflexivity | constructor].
Qed.

Lemma for_each_ok {A : Type} (l : list A) (body : A -> M unit) :
  (forall x w, In x l -> out_res (body x w) = Ok tt) ->
  forall w, out_res (for_each l body w) = Ok tt.
Proof.
  intros Hb w.
  assert (Hb' : forall x w', In x l ->
            out_res (body x w') = Ok tt
            /\ Forall (fun _ : Call => True) (out_trace (body x w'))).
  { intros x w' I. split; [now apply Hb|]. apply Forall_forall. trivial. }
  exact (proj1 (@for_each_all A l body (fun _ => True) Hb' w)).
Qed.

(** X13.  A dispatch returns whenever the two ways out of its loop are
    closed: the value it logs to can log, no [try] block of a registered
    add-on raises a database error, and the error handling returns for each
    of them (their class is registered and [can_install], the deletion and
    [post_uninstall] do not raise).  Every other exception raised by a
    handler is then absorbed. *)
Theorem dispatch_returns :
  forall (l : Loop) (c : Component) (w0 : Store),
    loop_ok l ->
    loop_logs l = true ->
    (forall a w ex, In a (loop_addons l c) ->
                    out_res (loop_attempt l c a w) = Raise ex ->
                    is_database_error ex = false) ->
    (forall a w, In a (loop_addons l c) ->
                 out_res (handle_addon_error a c w) = Ok tt) ->
    out_res (loop_run l c w0) = Ok tt.
Proof.
  intros l c w0 Lok Lg Hdb Herr. rewrite (loop_run_for_each l c w0 Lok).
  apply for_each_ok. intros a w I.
  destruct (loop_enters l a) eqn:En.
  - destruct (out_res (loop_attempt l c a (loop_start l c a w))) as [[]|ex] eqn:R.
    + now rewrite (loop_step_returns l c a w En R).
    + rewrite (loop_step_exception l c a w En R (Hdb a _ ex I R)).
      cbn [out_res prepend]. now apply Herr.
  - now rewrite (loop_skips l c a w Lg En).
Qed.

Lemma for_each_trace_split {A : Type} (l : list A) (body : A -> M unit) :
  forall (w : Store) (c : Call),
    In c (out_trace (for_each l body w)) ->
    exists x w' t1 t2,
      In x l
      /\ out_trace (for_each l body w) = t1 ++ out_trace (body x w') ++ t2
      /\ In c (out_trace (body x w')).
Proof.
  induction l as [|x l IH]; intros w c I.
  - contradiction.
  - rewrite for_each_cons in I |- *.
    destruct (out_res (body x w)).
    + rewrite prepend_trace in I |- *. apply in_app_or in I.
      destruct I as [I|I].
      * exists x, w, [], (out_trace (for_each l body (out_store (body x w)))).
        split; [now left|]. split; [reflexivity | exact I].
      * destruct (IH _ _ I) as [y [w' [t1 [t2 [Iy [E Ic]]]]]].
        exists y, w', (out_trace (body x w) ++ t1), t2.
        split; [now right|]. split; [|exact Ic].
        rewrite E, <- app_assoc. reflexivity.
    + cbn [out_trace] in I |- *. exists x, w, [], [].
      split; [now left|]. split; [now rewrite app_nil_r | exact I].
Qed.

Lemma Addon_delete_deletes (a : Addon) (w : Store) (a' : Addon) :
  In (ModelDelete a') (out_trace (Addon_delete a w)) -> a' = a.
Proof.
  intros I. destruct (addon a) as [obj|e] eqn:Ea.
  - destruct (addon_pk a) as [k|] eqn:Ek.
    + rewrite (@Addon_delete_outcome a w obj k Ea Ek) in I.
      unfold delete_calls in I. cbn [out_trace] in I.
      destruct (alert_of (obj_class obj)); cbn in I;
        repeat (destruct I as [I|I]; [try discriminate; now injection I|]);
        contradiction.
    + unfold Addon_delete in I. rewrite bind_store_change, Ea, bind_lift_ok in I.
      destruct (alert_of (obj_class obj)).
      * rewrite bind_emit, (bind_model_delete_unsaved _ _ _ Ek) in I.
        cbn in I. intuition discriminate.
      * rewrite bind_ret, (bind_model_delete_unsaved _ _ _ Ek) in I.
        cbn in I. intuition discriminate.
  - unfold Addon_delete in I. rewrite bind_store_change, Ea, bind_lift_raise in I.
    cbn in I. intuition discriminate.
Qed.

Lemma handle_addon_error_deletes (a : Addon) (c : Component) (w : Store)
    (a' : Addon) :
  In (ModelDelete a') (out_trace (handle_addon_error a c w)) -> a' = a.
Proof.
  intros I. destruct (addon a) as [obj|e] eqn:Ea.
  - unfold handle_addon_error in I. rewrite bind_emit, Ea, bind_lift_ok in I.
    rewrite prepend_trace, bind_trace in I.
    apply in_app_or in I. destruct I as [I|I]; [cbn in I; intuition discriminate|].
    apply in_app_or in I. destruct I as [I|I]; [cbn in I; intuition discriminate|].
    match type of I with
    | In _ (match ?r with _ => _ end) => destruct r as [ok|e]; [|contradiction]
    end.
    destruct ok; cbn [negb] in I; [contradiction|].
    unfold disable in I. rewrite bind_emit, prepend_trace in I.
    apply in_app_or in I. destruct I as [I|I]; [cbn in I; intuition discriminate|].
    now apply Addon_delete_deletes in I.
  - rewrite (handle_addon_error_unregistered a c w Ea) in I.
    cbn in I. intuition discriminate.
Qed.

Lemma no_alarm_not_ModelDelete (t : list Call) (a : Addon) :
  Forall (fun call => alarm call = false) t -> ~ In (ModelDelete a) t.
Proof.
  intros F I. rewrite Forall_forall in F. specialize (F _ I). discriminate.
Qed.

Lemma loop_step_deletes (l : Loop) (c : Component) (x : Addon) (w : Store)
    (a' : Addon) :
  In (ModelDelete a') (out_trace (loop_step l c x w)) ->
  a' = x
  /\ exists t1 t2 t3,
       out_trace (loop_step l c x w)
       = t1 ++ report x c :: t2 ++ ModelDelete x :: t3.
Proof.
  intros I. destruct (loop_enters l x) eqn:En.
  - rewrite (loop_step_enters l c x w En) in I |- *.
    rewrite prepend_trace in I |- *.
    set (w1 := loop_start l c x w) in *.
    pose proof (loop_attempt_no_alarm l c x w1) as Na.
    destruct (loop_log_lines l c x) as [Lr Lc].
    apply in_app_or in I. destruct I as [I|I].
    { destruct I as [I|[]]. rewrite I in Lr. discriminate. }
    unfold try_except_else in I |- *.
    destruct (out_res (loop_attempt l c x w1)) as [v|ex].
    + rewrite prepend_trace in I. apply in_app_or in I. destruct I as [I|I].
      * now destruct (no_alarm_not_ModelDelete _ Na I).
      * destruct I as [I|[]]. rewrite I in Lc. discriminate.
    + destruct (is_database_error ex).
      * now destruct (no_alarm_not_ModelDelete _ Na I).
      * rewrite prepend_trace in I |- *. apply in_app_or in I.
        destruct I as [I|I]; [now destruct (no_alarm_not_ModelDelete _ Na I)|].
        pose proof (handle_addon_error_deletes I) as ->.
        split; [reflexivity|].
        destruct (handle_addon_error_reports x c
                    (out_store (loop_attempt l c x w1))) as [t E].
        rewrite E in I |- *. destruct I as [I|I]; [discriminate|].
        apply in_split in I. destruct I as [t2 [t3 ->]].
        exists ([loop_running l c x] ++ out_trace (loop_attempt l c x w1)), t2, t3.
        now rewrite <- app_assoc.
  - exfalso. destruct l as [e s kw | p child skip]; simpl in En, I.
    + unfold event_step in I. rewrite (log_debug_not_loggable _ _ _ En) in I.
      exact I.
    + unfold post_update_step in I. apply negb_false_iff in En.
      rewrite En in I. exact I.
Qed.

(** X14.  A dispatch deletes only installations that are registered for the
    dispatched event, and only after it has reported their failure: every
    deletion in the trace of a dispatch is of an add-on of the query, and is
    preceded by the error report for that add-on. *)
Theorem dispatch_deletes_only_reported_addons :
  forall (l : Loop) (c : Component) (w0 : Store) (a : Addon),
    loop_ok l ->
    In (ModelDelete a) (out_trace (loop_run l c w0)) ->
    In a (loop_addons l c)
    /\ exists t1 t2 t3,
         out_trace (loop_run l c w0)
         = t1 ++ report a c :: t2 ++ ModelDelete a :: t3.
Proof.
  intros l c w0 a Lok I. rewrite (loop_run_for_each l c w0 Lok) in I |- *.
  apply for_each_trace_split in I.
  destruct I as [x [w' [u1 [u2 [Ix [E I]]]]]].
  destruct (loop_step_deletes l c x w' a I) as [-> [t1 [t2 [t3 Es]]]].
  split; [exact Ix|].
  exists (u1 ++ t1), t2, (t3 ++ u2).
  rewrite E, Es, <- !app_assoc. cbn. rewrite <- !app_assoc. reflexivity.
Qed.

(** ** More on event subscriptions *)

(** One [get_or_create], in any table: only the subscription table and its
    sequence can change. *)
Lemma get_or_create_frame (k : nat) (e : EventType) (w : Store) :
  let o := bind (get_or_create k e) (fun _ => ret tt) w in
  addon_table (out_store o) = addon_table w
  /\ change_table (out_store o) = change_table w
  /\ host (out_store o) = host w
  /\ Forall (fun c => subscription_write c = true) (out_trace o).
Proof.
  unfold bind, get_or_create.
  destruct (filter (event_matches k e) (event_table w)) as [|r [|r' rest]];
    cbn; repeat split; repeat constructor.
Qed.

Lemma create_all_frame (k : nat) (events : list EventType) :
  forall w : Store,
    let o := for_each events
               (fun event => bind (get_or_create k event) (fun _ => ret tt)) w in
    addon_table (out_store o) = addon_table w
    /\ change_table (out_store o) = change_table w
    /\ host (out_store o) = host w
    /\ Forall (fun c => subscription_write c = true) (out_trace o).
Proof.
  induction events as [|e es IH]; intros w; cbv zeta.
  - cbn. repeat split; constructor.
  - rewrite for_each_cons.
    destruct (get_or_create_frame k e w) as [Ta [Tc [Th F]]].
    destruct (out_res (bind (get_or_create k e) (fun _ => ret tt) w)).
    + destruct (IH (out_store (bind (get_or_create k e) (fun _ => ret tt) w)))
        as [Ta2 [Tc2 [Th2 F2]]].
      unfold prepend. cbn [out_store out_trace].
      split; [congruence|]. split; [congruence|]. split; [congruence|].
      apply Forall_app. now split.
    + cbn [out_store out_trace]. now repeat split.
Qed.

(** X15.  [configure_events] writes the subscription table and nothing
    else: whatever the installation, the list and the table, and whether it
    returns or raises, the add-on table, the history and the host are as
    they were (no history entry is written for a change of subscriptions),
    and its only calls are row creations and the final delete. *)
Theorem configure_events_writes_only_subscriptions :
  forall (self : Addon) (events : list EventType) (w : Store),
    let o := configure_events self events w in
    addon_table (out_store o) = addon_table w
    /\ change_table (out_store o) = change_table w
    /\ host (out_store o) = host w
    /\ Forall (fun c => subscription_write c = true) (out_trace o).
Proof.
  intros self events w o. unfold o, configure_events.
  destruct (addon_pk self) as [k|].
  - destruct (create_all_frame k events w) as [Ta [Tc [Th F]]].
    set (o1 := for_each events
                 (fun event => bind (get_or_create k event) (fun _ => ret tt)) w)
      in *.
    destruct (out_res o1) as [[]|ex] eqn:R.
    + unfold o1 in R. rewrite (bind_ok _ _ _ R). fold o1.
      unfold prepend, delete_excluded. cbn [out_store out_trace addon_table
        change_table host].
      split; [exact Ta|]. split; [exact Tc|]. split; [exact Th|].
      apply Forall_app. split; [exact F | now repeat constructor].
    + unfold o1 in R. rewrite (bind_raise _ _ _ R). fold o1.
      cbn [out_store out_trace]. now repeat split.
  - cbn. repeat split; constructor.
Qed.



Lemma get_or_create_multiple (k : nat) (e : EventType) (w : Store) :
  2 <= List.length (filter (event_matches k e) (event_table w)) ->
  bind (get_or_create k e) (fun _ => ret tt) w
  = mkOut [] w (Raise MultipleObjectsReturned).
Proof.
  intros L. unfold bind, get_or_create.
  destruct (filter (event_matches k e) (event_table w)) as [|r [|r' l]];
    [simpl in L; lia | simpl in L; lia | reflexivity].
Qed.

(** X17.  The two ways [configure_events] fails, both before anything is
    written.  For an installation that has no primary key yet it raises
    [ValueError].  When the table holds more than one row for the
    installation and the first listed event (the uniqueness constraint is
    broken), [get_or_create] raises [MultipleObjectsReturned]: no row is
    created and none is deleted. *)
Theorem configure_events_failures :
  forall (self : Addon) (events : list EventType) (w : Store),
    (addon_pk self = None ->
     configure_events self events w
     = mkOut [] w (Raise (ValueError "unsaved related object")))
    /\ (forall k e rest,
          addon_pk self = Some k ->
          events = e :: rest ->
          2 <= List.length (filter (event_matches k e) (event_table w)) ->
          configure_events self events w
          = mkOut [] w (Raise MultipleObjectsReturned)).
Proof.
  intros self events w. unfold configure_events. split.
  - intros E. now rewrite E.
  - intros k e rest Ek -> L. rewrite Ek.
    pose proof (get_or_create_multiple k e w L) as G.
    assert (R : out_res (bind (get_or_create k e) (fun _ => ret tt) w)
                = Raise MultipleObjectsReturned) by now rewrite G.
    pose proof (for_each_raise e rest
                  (fun event => bind (get_or_create k event) (fun _ => ret tt))
                  w R) as F.
    cbv beta in F. rewrite G in F. cbn [out_trace out_store] in F.
    assert (R2 : out_res (for_each (e :: rest)
                   (fun event => bind (get_or_create k event) (fun _ => ret tt)) w)
                 = Raise MultipleObjectsReturned) by now rewrite F.
    rewrite (bind_raise _ _ _ R2), F. reflexivity.
Qed.

End Properties.

(** * Examples on the small installation *)

Module Examples.

Import Demo.







(** C7, counterexample.  [mirror] links to [docs], which itself links to
    [upstream].  Saving a repository-wide add-on on [mirror] moves it one
    link up, to [docs]: after the save it is attached to a component that
    links to another repository. *)
Lemma save_on_chained_link :
  exists saved,
    out_res (save a_new_squash false false None w0) = Ok saved
    /\ repo_scope saved = true
    /\ component saved = docs
    /\ linked_component (component saved) = Some upstream.
Proof. eexists. repeat split; vm_compute; reflexivity. Qed.

(** C7, witness.  [docs] links to [upstream], which is no link: a
    repository-wide add-on saved on [docs] ends up on [upstream]. *)
Lemma save_rederives_scope_witness :
  project_scope (save_prepare squash_cls a_docs_squash) = false
  /\ repo_scope (save_prepare squash_cls a_docs_squash) = true
  /\ component (save_prepare squash_cls a_docs_squash) = upstream
  /\ linked_component (component (set_pk (save_prepare squash_cls a_docs_squash) 99))
     = None.
Proof.
  destruct (@save_rederives_scope HostState demo_host a_docs_squash
              false false None w0 squash_cls eq_refl)
    as [Ps [Rs [Cs [_ [_ L]]]]].
  split; [exact Ps|]. split; [exact Rs|]. split; [exact Cs|].
  apply L.
  - intros l E. injection E as <-. reflexivity.
  - vm_compute. reflexivity.
  - reflexivity.
Defined.



End Examples.

(** * Examples for the further properties *)

Module MoreExamples.

Import Demo Demo2.

(** X1, witness. *)
Lemma installation_applies_to_own_component_witness :
  In a_plain (filter_component (addon_table w0) upstream).
Proof.
  apply installation_applies_to_own_component.
  - simpl. tauto.
  - reflexivity.
  - reflexivity.
Defined.

(** X2, witness: the repository-wide add-on saved on [docs] lands on
    [upstream] and still applies to [docs]. *)
Lemma saved_installation_still_applies_witness :
  filter_component_q docs (set_pk (save_prepare squash_cls a_docs_squash) 99) = true
  /\ filter_component_q upstream (set_pk (save_prepare squash_cls a_docs_squash) 99)
     = true.
Proof.
  destruct (@saved_installation_still_applies HostState demo_host
              a_docs_squash false false None w0
              (set_pk (save_prepare squash_cls a_docs_squash) 99))
    as [A [B _]]; [vm_compute; reflexivity|].
  split; [exact A | exact B].
Defined.

(** X3, witness. *)
Lemma save_again_changes_nothing_witness :
  save_prepare squash_cls (set_pk (save_prepare squash_cls a_docs_squash) 99)
  = set_pk (save_prepare squash_cls a_docs_squash) 99.
Proof.
  refine (proj1 (@save_again_changes_nothing HostState demo_host
                   a_docs_squash false false None w0
                   (set_pk (save_prepare squash_cls a_docs_squash) 99)
                   squash_cls _ eq_refl _)).
  - intros l E. injection E as <-. reflexivity.
  - vm_compute. reflexivity.
Defined.

(** X4, witness: a first save (no primary key, no [force_insert]) is
    recorded as a change. *)
Lemma save_history_entry_witness :
  exists w1,
    out_store (save a_docs_squash false false None w0)
    = fst (model_save (save_prepare squash_cls a_docs_squash) false false None w1)
    /\ change_table w1
       = [mkChange ACTION_ADDON_CHANGE None upstream "demo.squash" "{}"].
Proof.
  destruct (@save_history_entry HostState demo_host a_docs_squash
              false false None w0 squash_cls eq_refl)
    as [w1 [S [_ [C _]]]].
  exists w1. split; [exact S | exact C].
Defined.


(** X6, witness: deleting a record that was never saved. *)
Lemma delete_failure_leaves_history_entry_witness :
  out_res (Addon_delete a_unsaved w0) = Raise (ValueError "pk is None")
  /\ change_table (out_store (Addon_delete a_unsaved w0)) = [removal a_unsaved].
Proof.
  destruct (@delete_failure_leaves_history_entry HostState demo_host
              a_unsaved w0 (or_intror eq_refl))
    as [R [_ [_ [C _]]]].
  split; [exact R | exact C].
Defined.

(** X7, witness: the second of three add-ons has lost its class. *)
Lemma unregistered_addon_stops_dispatch_witness :
  out_res (loop_run (H := ghost_host) post_add_loop upstream w0)
  = Raise (KeyError "demo.ghost").
Proof.
  refine (proj1 (@unregistered_addon_stops_dispatch HostState ghost_host
                   post_add_loop upstream [a_steady] a_ghost [a_steady] w0
                   eq_refl eq_refl _ eq_refl eq_refl)).
  vm_compute. reflexivity.
Defined.

(** X8, witness. *)
Lemma error_handler_failure_reaches_caller_witness :
  out_res (loop_run (H := ghost_host) post_add_loop upstream w0)
  = Raise (KeyError "demo.ghost")
  /\ invoked (out_trace (loop_run (H := ghost_host) post_add_loop upstream w0))
     = [a_steady].
Proof.
  assert (E := @error_handler_failure_reaches_caller HostState ghost_host
                 post_add_loop upstream [a_steady] a_ghost [a_steady] w0
                 (KeyError "demo.ghost") (KeyError "demo.ghost")
                 eq_refl eq_refl).
  cbv zeta in E. rewrite E; try (vm_compute; reflexivity).
  split; vm_compute; reflexivity.
Defined.

(** X10, witness: for a child component, the handler of the plain add-on
    is called and that of the repository-wide one is not. *)
Lemma post_update_skips_repo_scope_for_child_witness :
  In a_steady (filter_event (H := ghost_host) upstream EVENT_POST_UPDATE)
  /\ repo_scope a_steady = false
  /\ invoked (out_trace (post_update (H := ghost_host) upstream "head" true false w0))
     = [a_steady].
Proof.
  destruct (@post_update_skips_repo_scope_for_child HostState ghost_host
              upstream "head" true false w0 a_steady "post_update"
              (PosArgs [VComponent upstream; VStr "head"; VBool false]))
    as [I [_ [_ R]]].
  - vm_compute. do 2 right. left. reflexivity.
  - split; [exact I|]. split; [exact (R eq_refl) | vm_compute; reflexivity].
Defined.

(** X11, witness. *)
Lemma post_update_missing_method_is_an_error_witness :
  In (report a_plain upstream)
     (out_trace (post_update_step upstream "head" false false a_plain w0)).
Proof.
  exact (proj2 (@post_update_missing_method_is_an_error HostState demo_host
                  upstream "head" false false a_plain
                  (mkAddonObject plain_cls a_plain) w0
                  eq_refl eq_refl eq_refl)).
Defined.

(** X12, witness: nothing fails in the pre-commit dispatch. *)
Lemma dispatch_without_failure_is_silent_witness :
  out_res (pre_commit (mkTranslation 1 upstream) (VStr "author") w0) = Ok tt
  /\ out_res (loop_run pre_commit_loop upstream w0) = Ok tt
  /\ Forall (fun call => alarm call = false)
            (out_trace (loop_run pre_commit_loop upstream w0)).
Proof.
  split; [vm_compute; reflexivity|].
  apply (@dispatch_without_failure_is_silent HostState demo_host
           pre_commit_loop upstream w0 eq_refl eq_refl).
  intros a w [<-|[<-|[<-|[]]]]; reflexivity.
Defined.

(** X13, witness: a handler raises in the post-commit dispatch, and the
    dispatch returns. *)
Lemma dispatch_returns_witness :
  out_res (loop_run post_commit_loop upstream w0) = Ok tt.
Proof.
  apply (@dispatch_returns HostState demo_host post_commit_loop upstream w0
           eq_refl eq_refl).
  - intros a w ex [<-|[<-|[<-|[]]]] E; cbv in E;
      first [discriminate | injection E as <-; reflexivity].
  - intros a w [<-|[<-|[<-|[]]]]; reflexivity.
Defined.

(** X14, witness: the one deletion of the pre-push dispatch. *)
Lemma dispatch_deletes_only_reported_addons_witness :
  In a_broken (loop_addons pre_push_loop upstream)
  /\ exists t1 t2 t3,
       out_trace (loop_run pre_push_loop upstream w0)
       = t1 ++ report a_broken upstream :: t2 ++ ModelDelete a_broken :: t3.
Proof.
  apply (@dispatch_deletes_only_reported_addons HostState demo_host
           pre_push_loop upstream w0 a_broken eq_refl).
  vm_compute. do 9 right. left. reflexivity.
Defined.


(** X17, witness: two rows for the same installation and event. *)
Lemma configure_events_failures_witness :
  configure_events a_steady [EVENT_PRE_PUSH] w_broken
  = mkOut [] w_broken (Raise MultipleObjectsReturned).
Proof.
  refine (proj2 (@configure_events_failures HostState a_steady
                   [EVENT_PRE_PUSH] w_broken) 11 EVENT_PRE_PUSH [] eq_refl eq_refl _).
  vm_compute. lia.
Defined.

End MoreExamples.
